(** * Verification of the on-toolhead memory of the Cocoa toolhead
    (klippy/extras/cocoa_toolhead/memory.py).

    The module embeds the [Header] codec (32-byte on-device header), the
    [CocoaMemory] lifecycle controller (attach, save, detach) and its
    key-value facade.  Bytes are [Z] values in [0, 256); a byte string is a
    [list Z].  Python exceptions are the constructors of [Err]; a method that
    raises keeps the mutations it made before raising, so the controller runs
    in a state monad whose result is [Res]. *)

From Stdlib Require Import String ZArith List Bool Lia Btauto QArith.
Import ListNotations.
Open Scope Z_scope.

(* ------------------------------------------------------------------ *)
(** ** Byte strings *)

(** [struct] little-endian unsigned integer of [n] bytes. *)
Fixpoint le_bytes (n : nat) (x : Z) : list Z :=
  match n with
  | O => []
  | S m => (x mod 256) :: le_bytes m (x / 256)
  end.

Fixpoint le_int (b : list Z) : Z :=
  match b with
  | [] => 0
  | x :: r => x + 256 * le_int r
  end.

(** [uuid.UUID.bytes] is big-endian; [uuid.UUID(bytes=...)] reads it back. *)
Definition be_bytes (n : nat) (x : Z) : list Z := rev (le_bytes n x).
Definition be_int (b : list Z) : Z := le_int (rev b).

(** Python slices [v[a:b]], [v[:-2]] and [v[-2:]] (for [len v >= 2]). *)
Definition slice (a b : nat) (v : list Z) : list Z := firstn (b - a) (skipn a v).
Definition py_drop_last2 (v : list Z) : list Z := firstn (length v - 2) v.
Definition py_last2 (v : list Z) : list Z := skipn (length v - 2) v.

Definition is_byte (x : Z) : Prop := 0 <= x < 256.

(* ------------------------------------------------------------------ *)
(** ** CRC-16 *)

(** Modelled from the spec: [crc16_ccitt] of klippy/msgproto.py, which
    memory.py imports but which is not part of the sources at hand.  §6 of
    the spec names it CRC-16/CCITT whose value on the empty sequence is the
    constant [NULL_CRC16 = b"\xff\xff"]; it is written here in the byte-wise
    form of the Klipper host (initial value 0xFFFF, result returned as
    [[crc >> 8, crc & 0xFF]]):
<<
    crc = 0xFFFF
    for data in buf:
        data ^= crc & 0xFF
        data ^= (data & 0x0F) << 4
        crc = ((data << 8) | (crc >> 8)) ^ (data >> 4) ^ (data << 3)
    return [crc >> 8, crc & 0xFF]
>> *)
Definition crc16_update (crc data : Z) : Z :=
  let d1 := Z.lxor data (Z.land crc 255) in
  let d2 := Z.lxor d1 (Z.shiftl (Z.land d1 15) 4) in
  Z.lxor (Z.lxor (Z.lor (Z.shiftl d2 8) (Z.shiftr crc 8)) (Z.shiftr d2 4))
         (Z.shiftl d2 3).

Fixpoint crc16_loop (crc : Z) (buf : list Z) : Z :=
  match buf with
  | [] => crc
  | d :: r => crc16_loop (crc16_update crc d) r
  end.

Definition crc16_ccitt (buf : list Z) : list Z :=
  let c := crc16_loop 65535 buf in [Z.shiftr c 8; Z.land c 255].

(** [NULL_CRC16 = b"\xff\xff"  # crc16(b'')] *)
Definition NULL_CRC16 : list Z := [255; 255].

(* ------------------------------------------------------------------ *)
(** ** Exceptions and results *)

Inductive Err : Type :=
| InvalidMagic          (** HeaderError *)
| InvalidVersion        (** HeaderError *)
| InvalidChecksum       (** HeaderError *)
| StructError           (** struct.error from pack / unpack *)
| IndexError            (** [v[2]] on a too short buffer *)
| DeviceError           (** CommandError raised by the memory device *)
| DecodeError           (** msgpack failed to decode the payload *)
| MemoryNotConnected    (** MemoryError *)
| KeyNotFound           (** KeyError raised by [get] *)
| EncodeError           (** msgpack failed to encode the record *)
| TypeOrAttributeError. (** operation on [None] *)

Definition is_header_error (e : Err) : bool :=
  match e with
  | InvalidMagic | InvalidVersion | InvalidChecksum => true
  | _ => false
  end.

Inductive Res (A : Type) : Type :=
| Ok (a : A)
| Raise (e : Err).
Arguments Ok {A} a.
Arguments Raise {A} e.

(* ------------------------------------------------------------------ *)
(** ** Header *)

(** The frozen dataclass [Header]; [uid] is the 128-bit integer of the
    [uuid.UUID]. *)
Record Header : Type := mkHeader {
  magic : list Z;
  version : Z;
  uid : Z;
  timestamp : Z;
  data_page : Z;
  data_length : Z;
  data_checksum : list Z
}.

Definition HEADER_MAGIC : list Z := [192; 192].   (** [b"\xc0\xc0"] *)
Definition HEADER_VERSION : Z := 1.
Definition HEADER_SIZE : nat := 32.

(** [Header(uid=uuid.uuid1(), timestamp=timestamp_utc())] with every other
    field at its default; the identifier and the clock reading are inputs. *)
Definition Header_new (u now : Z) : Header :=
  {| magic := HEADER_MAGIC; version := HEADER_VERSION; uid := u;
     timestamp := now; data_page := 0; data_length := 0;
     data_checksum := NULL_CRC16 |}.

(** Dataclass [__eq__]: field-wise comparison. *)
Definition header_eqb (a b : Header) : bool :=
  (if list_eq_dec Z.eq_dec (magic a) (magic b) then true else false) &&
  (version a =? version b) && (uid a =? uid b) &&
  (timestamp a =? timestamp b) && (data_page a =? data_page b) &&
  (data_length a =? data_length b) &&
  (if list_eq_dec Z.eq_dec (data_checksum a) (data_checksum b)
   then true else false).

(** [struct] format codes used by [Header.struct]. *)
Definition pack_s (n : nat) (b : list Z) : list Z :=
  firstn n b ++ repeat 0 (n - length b).
Definition pack_uint (n : nat) (v : Z) : option (list Z) :=
  if (0 <=? v) && (v <? 2 ^ (8 * Z.of_nat n)) then Some (le_bytes n v)
  else None.

(** [Header.struct.pack(...)]: "<2sB16sxxIBH2s2s". *)
Definition header_pack (h : Header) (hcrc : list Z) : option (list Z) :=
  match pack_uint 1 (version h), pack_uint 4 (timestamp h),
        pack_uint 1 (data_page h), pack_uint 2 (data_length h) with
  | Some vb, Some tb, Some pb, Some lb =>
      Some (pack_s 2 (magic h) ++ vb ++ pack_s 16 (be_bytes 16 (uid h))
            ++ [0; 0] ++ tb ++ pb ++ lb ++ pack_s 2 (data_checksum h)
            ++ pack_s 2 hcrc)
  | _, _, _, _ => None
  end.

(** [Header.to_bytes] *)
Definition to_bytes (h : Header) : option (list Z) :=
  match header_pack h NULL_CRC16 with
  | Some dat => Some (py_drop_last2 dat ++ crc16_ccitt (py_drop_last2 dat))
  | None => None
  end.

(** [Header.struct.unpack(v)] followed by the constructor call. *)
Definition header_unpack (v : list Z) : Res Header :=
  if Nat.eqb (length v) HEADER_SIZE then
    Ok {| magic := slice 0 2 v;
          version := nth 2 v 0;
          uid := be_int (slice 3 19 v);
          timestamp := le_int (slice 21 25 v);
          data_page := nth 25 v 0;
          data_length := le_int (slice 26 28 v);
          data_checksum := slice 28 30 v |}
  else Raise StructError.

(** [Header.from_bytes] *)
Definition from_bytes (v : list Z) : Res Header :=
  if list_eq_dec Z.eq_dec (firstn 2 v) HEADER_MAGIC then
    match nth_error v 2 with
    | None => Raise IndexError
    | Some b =>
        if negb (b =? HEADER_VERSION) then Raise InvalidVersion
        else if list_eq_dec Z.eq_dec (crc16_ccitt (py_drop_last2 v)) (py_last2 v)
        then header_unpack v
        else Raise InvalidChecksum
    end
  else Raise InvalidMagic.

(** [Header.update(data=...)]: [dataclasses.replace] with a fresh timestamp. *)
Definition update (h : Header) (data : list Z) (now : Z) : Header :=
  {| magic := magic h; version := version h; uid := uid h;
     timestamp := now; data_page := data_page h;
     data_length := Z.of_nat (length data);
     data_checksum := crc16_ccitt data |}.

(** [Header.get_data_address] *)
Definition get_data_address (h : Header) : Z := 256 * (data_page h + 1).

(* ------------------------------------------------------------------ *)
(** ** The cached record *)

Local Unset Elimination Schemes.

(** Values a record holds (what msgpack can carry). *)
Inductive Value : Type :=
| VNil
| VBool (b : bool)
| VInt (z : Z)
| VStr (s : string)
| VList (l : list Value)
| VMap (m : list (string * Value)).
Local Set Elimination Schemes.

(** A Python [dict] with string keys, in insertion order. *)
Definition Config : Type := list (string * Value).

Fixpoint dict_get (c : Config) (k : string) : option Value :=
  match c with
  | [] => None
  | (k', v) :: r => if String.eqb k k' then Some v else dict_get r k
  end.

Definition dict_mem (c : Config) (k : string) : bool :=
  match dict_get c k with Some _ => true | None => false end.

(** [d[k] = v]: replaces the value in place, or appends a new entry. *)
Fixpoint dict_replace (c : Config) (k : string) (v : Value) : Config :=
  match c with
  | [] => []
  | (k', v') :: r =>
      if String.eqb k k' then (k', v) :: r else (k', v') :: dict_replace r k v
  end.

Definition dict_set (c : Config) (k : string) (v : Value) : Config :=
  if dict_mem c k then dict_replace c k v else c ++ [(k, v)].

(** [del d[k]] *)
Definition dict_del (c : Config) (k : string) : Config :=
  filter (fun p => negb (String.eqb (fst p) k)) c.

(** What a Python value always satisfies and a [Value] need not: a dict
    binds each key once, at every depth. *)
Fixpoint keys_nodup (m : Config) : bool :=
  match m with
  | [] => true
  | (k, _) :: r => negb (dict_mem r k) && keys_nodup r
  end.

Fixpoint value_wf (v : Value) : bool :=
  match v with
  | VList l => forallb value_wf l
  | VMap m => keys_nodup m && forallb (fun p => value_wf (snd p)) m
  | _ => true
  end.

(** Induction on values through the lists and dicts they hold. *)
Section ValueInd.
Variable P : Value -> Prop.
Hypothesis HNil : P VNil.
Hypothesis HBool : forall b, P (VBool b).
Hypothesis HInt : forall z, P (VInt z).
Hypothesis HStr : forall s, P (VStr s).
Hypothesis HList : forall l, Forall P l -> P (VList l).
Hypothesis HMap : forall m, Forall (fun p => P (snd p)) m -> P (VMap m).

Fixpoint Value_ind' (v : Value) : P v :=
  match v with
  | VNil => HNil
  | VBool b => HBool b
  | VInt z => HInt z
  | VStr s => HStr s
  | VList l =>
      HList l ((fix go (l : list Value) : Forall P l :=
                  match l with
                  | [] => Forall_nil _
                  | x :: r => Forall_cons x (Value_ind' x) (go r)
                  end) l)
  | VMap m =>
      HMap m ((fix go (m : list (string * Value))
                 : Forall (fun p => P (snd p)) m :=
                 match m with
                 | [] => Forall_nil _
                 | (k, x) :: r => Forall_cons (k, x) (Value_ind' x) (go r)
                 end) m)
  end.
End ValueInd.

(** [self.config] is a dict or [None]; [msgpack.dumps] sees either. *)
Definition config_value (c : option Config) : Value :=
  match c with None => VNil | Some m => VMap m end.

(** Python truthiness of [self._last_config]. *)
Definition config_truthy (c : option Config) : bool :=
  match c with Some (_ :: _) => true | _ => false end.

(** [self.header == self._last_header] ([Header == None] is false). *)
Definition header_opt_eqb (a b : option Header) : bool :=
  match a, b with
  | Some x, Some y => header_eqb x y
  | None, None => true
  | _, _ => false
  end.

(* ------------------------------------------------------------------ *)
(** ** A state and exception monad *)

(** A computation on state [S] returns a result and the state reached;
    a raised exception keeps the state as it was when raised. *)
Definition M (S A : Type) : Type := S -> Res A * S.

Definition ret {S A} (a : A) : M S A := fun s => (Ok a, s).
Definition raise {S A} (e : Err) : M S A := fun s => (Raise e, s).
Definition bind {S A B} (m : M S A) (k : A -> M S B) : M S B :=
  fun s => match m s with
           | (Ok a, s') => k a s'
           | (Raise e, s') => (Raise e, s')
           end.
Definition get_state {S} : M S S := fun s => (Ok s, s).
Definition modify {S} (f : S -> S) : M S unit := fun s => (Ok tt, f s).

(** [try: m except <exception satisfying p>: h] *)
Definition catch {S A} (p : Err -> bool) (m : M S A) (h : Err -> M S A)
  : M S A :=
  fun s => match m s with
           | (Raise e, s') => if p e then h e s' else (Raise e, s')
           | r => r
           end.

Notation "x <- m ;; k" := (bind m (fun x => k))
  (at level 61, m at next level, right associativity).
Notation "m ;;; k" := (bind m (fun _ => k))
  (at level 61, right associativity).

(* ------------------------------------------------------------------ *)
(** ** The lifecycle controller [CocoaMemory] *)

(** Attributes of [CocoaMemory]; [timer_armed] is whether [_save_timer] is
    scheduled (not [NEVER]). *)
Record CState : Type := mkCState {
  connected : bool;
  header : option Header;
  config : option Config;
  last_header : option Header;
  last_config : option Config;
  timer_armed : bool
}.

(** Device accesses and readiness notifications, in the order they happen. *)
Inductive Event : Type :=
| EvRead (addr len : Z)
| EvWrite (addr : Z) (data : list Z)
| EvReady (conn : bool) (cfg : option Config).

Definition set_connected (b : bool) (s : CState) : CState :=
  {| connected := b; header := header s; config := config s;
     last_header := last_header s; last_config := last_config s;
     timer_armed := timer_armed s |}.
Definition set_header (h : option Header) (s : CState) : CState :=
  {| connected := connected s; header := h; config := config s;
     last_header := last_header s; last_config := last_config s;
     timer_armed := timer_armed s |}.
Definition set_config (c : option Config) (s : CState) : CState :=
  {| connected := connected s; header := header s; config := c;
     last_header := last_header s; last_config := last_config s;
     timer_armed := timer_armed s |}.
Definition set_last_header (h : option Header) (s : CState) : CState :=
  {| connected := connected s; header := header s; config := config s;
     last_header := h; last_config := last_config s;
     timer_armed := timer_armed s |}.
Definition set_last_config (c : option Config) (s : CState) : CState :=
  {| connected := connected s; header := header s; config := config s;
     last_header := last_header s; last_config := c;
     timer_armed := timer_armed s |}.
Definition set_timer (b : bool) (s : CState) : CState :=
  {| connected := connected s; header := header s; config := config s;
     last_header := last_header s; last_config := last_config s;
     timer_armed := b |}.

Section Controller.

(** The memory device ([self.memory]): a read or write either succeeds or
    raises a CommandError ([None]). *)
Variable D : Type.
Variable dev_read : D -> Z -> Z -> option (list Z).
Variable dev_write : D -> Z -> list Z -> option D.
(** The payload codec [msgpack.dumps] / [msgpack.loads]; [loads] yields the
    decoded mapping, [None] when the payload does not decode to one. *)
Variable dumps : Value -> option (list Z).
Variable loads : list Z -> option Config.

Record World : Type := mkWorld {
  w_dev : D;
  w_st : CState;
  w_trace : list Event
}.

Definition st_update (f : CState -> CState) : M World unit :=
  modify (fun w => {| w_dev := w_dev w; w_st := f (w_st w);
                      w_trace := w_trace w |}).

Definition emit (ev : Event) : M World unit :=
  modify (fun w => {| w_dev := w_dev w; w_st := w_st w;
                      w_trace := w_trace w ++ [ev] |}).

(** [self.memory.read(addr, length)] *)
Definition mem_read (a n : Z) : M World (list Z) :=
  emit (EvRead a n) ;;;
  w <- get_state ;;
  match dev_read (w_dev w) a n with
  | Some b => ret b
  | None => raise DeviceError
  end.

(** [self.memory.write(addr, data)] *)
Definition mem_write (a : Z) (b : list Z) : M World unit :=
  emit (EvWrite a b) ;;;
  w <- get_state ;;
  match dev_write (w_dev w) a b with
  | Some d => modify (fun w => {| w_dev := d; w_st := w_st w;
                                  w_trace := w_trace w |})
  | None => raise DeviceError
  end.

(** [CocoaMemory.save]; [now] is the reading of [timestamp_utc()]. *)
Definition save (now : Z) : M World unit :=
  w <- get_state ;;
  match dumps (config_value (config (w_st w))) with
  | None => raise EncodeError
  | Some payload =>
      match header (w_st w) with
      | None => raise TypeOrAttributeError
      | Some h =>
          let new_header := update h payload now in
          mem_write (get_data_address new_header) payload ;;;
          match to_bytes new_header with
          | None => raise StructError
          | Some hb =>
              mem_write 0 hb ;;;
              st_update (fun s => set_last_config (config s)
                                    (set_header (Some new_header) s))
          end
      end
  end.

(** The end of [CocoaMemory._attached]: arm the autosave timer and send the
    [cocoa_memory:<name>:ready] event. *)
Definition attach_finish : M World unit :=
  st_update (set_timer true) ;;;
  w <- get_state ;;
  emit (EvReady (connected (w_st w)) (config (w_st w))).

(** [CocoaMemory._attached].  [u] is the value of [uuid.uuid1()], [t0] and
    [t1] the readings of [timestamp_utc()] by [Header()] and by [save], and
    [name] the result of [generate_name()].  The console message of
    [gcode.respond_info] is not modelled. *)
Definition attached (u t0 t1 : Z) (name : string) : M World unit :=
  r <- catch (fun e => match e with DeviceError => true | _ => false end)
             (b <- mem_read 0 (Z.of_nat HEADER_SIZE) ;; ret (Some b))
             (fun _ => ret None) ;;
  match r with
  | None =>
      st_update (set_connected false) ;;;
      w <- get_state ;;
      emit (EvReady (connected (w_st w)) (config (w_st w)))
  | Some header_data =>
      st_update (set_connected true) ;;;
      (match from_bytes header_data with
       | Raise e =>
           if is_header_error e then
             let h := Header_new u t0 in
             st_update (fun s => set_config (Some [("name"%string, VStr name)])
                                   (set_header (Some h) (set_last_header (Some h) s))) ;;;
             save t1
           else raise e
       | Ok h =>
           st_update (set_header (Some h)) ;;;
           if 0 <? data_length h then
             w <- get_state ;;
             (if header_opt_eqb (Some h) (last_header (w_st w))
                 && config_truthy (last_config (w_st w))
              then ret tt
              else
                data <- mem_read (get_data_address h) (data_length h) ;;
                match loads data with
                | Some c => st_update (set_last_config (Some c))
                | None => raise DecodeError
                end) ;;;
             st_update (fun s => set_config (last_config s) s)
           else st_update (set_config (Some []))
       end) ;;;
      attach_finish
  end.

(** [CocoaMemory._on_detach] *)
Definition on_detach : M World unit :=
  st_update (fun s => set_timer false (set_config None
                        (set_header None (set_connected false s)))).

(** The key-value facade. *)
Definition require_config : M World Config :=
  w <- get_state ;;
  if negb (connected (w_st w)) then raise MemoryNotConnected
  else match config (w_st w) with
       | Some c => ret c
       | None => raise TypeOrAttributeError
       end.

Definition has (k : string) : M World bool :=
  c <- require_config ;; ret (dict_mem c k).

(** [get(key, default=...)]: [None] is the omitted default (the [...]
    sentinel). *)
Definition get (k : string) (default : option Value) : M World Value :=
  c <- require_config ;;
  match dict_get c k with
  | Some v => ret v
  | None => match default with
            | Some d => ret d
            | None => raise KeyNotFound
            end
  end.

Definition set (k : string) (v : Value) : M World unit :=
  c <- require_config ;; st_update (set_config (Some (dict_set c k v))).

Definition setdefault (k : string) (d : Value) : M World Value :=
  c <- require_config ;;
  match dict_get c k with
  | Some v => ret v
  | None => st_update (set_config (Some (dict_set c k d))) ;;; ret d
  end.

Definition delete (k : string) : M World unit :=
  c <- require_config ;;
  if dict_mem c k then st_update (set_config (Some (dict_del c k)))
  else ret tt.

End Controller.

Arguments mkWorld {D} w_dev w_st w_trace.
Arguments w_dev {D} w.
Arguments w_st {D} w.
Arguments w_trace {D} w.
Arguments st_update {D} f.
Arguments emit {D} ev.
Arguments mem_read {D} dev_read a n.
Arguments mem_write {D} dev_write a b.
Arguments save {D} dev_write dumps now.
Arguments attached {D} dev_read dev_write dumps loads u t0 t1 name.
Arguments on_detach {D}.
Arguments attach_finish {D}.
Arguments require_config {D}.
Arguments has {D} k.
Arguments get {D} k default.
Arguments set {D} k v.
Arguments setdefault {D} k d.
Arguments delete {D} k.

(* ------------------------------------------------------------------ *)
(** ** Change tracking, autosave and status *)

(** Python's [==] on record values: [bool] is a subclass of [int]
    ([True == 1]), lists compare element-wise, and dicts compare as
    mappings (equal sizes, and each key of the left one bound on the right
    to an equal value), whatever their insertion order. *)
Definition py_num (v : Value) : option Z :=
  match v with
  | VBool b => Some (if b then 1 else 0)
  | VInt z => Some z
  | _ => None
  end.

(** Element-wise [==] of two lists, with [eq] on the elements. *)
Fixpoint list_eqb_with (eq : Value -> Value -> bool) (l1 l2 : list Value)
  : bool :=
  match l1, l2 with
  | [], [] => true
  | x :: r1, y :: r2 => eq x y && list_eqb_with eq r1 r2
  | _, _ => false
  end.

(** Each key of [m1] is bound in [m2] to a value equal (by [eq]) to its own. *)
Fixpoint map_all_with (eq : Value -> Value -> bool) (m2 m1 : Config) : bool :=
  match m1 with
  | [] => true
  | (k, x) :: r =>
      match dict_get m2 k with
      | Some y => eq x y && map_all_with eq m2 r
      | None => false
      end
  end.

Fixpoint py_eqb (a b : Value) : bool :=
  match a, b with
  | VNil, VNil => true
  | VStr x, VStr y => String.eqb x y
  | VList l1, VList l2 => list_eqb_with py_eqb l1 l2
  | VMap m1, VMap m2 =>
      Nat.eqb (length m1) (length m2) && map_all_with py_eqb m2 m1
  | _, _ =>
      match py_num a, py_num b with
      | Some x, Some y => Z.eqb x y
      | _, _ => false
      end
  end.

(** [==] on [self.config] / [self._last_config], each a dict or [None]. *)
Definition opt_config_eqb (a b : option Config) : bool :=
  match a, b with
  | None, None => true
  | Some x, Some y => py_eqb (VMap x) (VMap y)
  | _, _ => false
  end.

(** [AUTOSAVE_INTERVAL = 1.0]; reactor times are kept as rationals. *)
Definition AUTOSAVE_INTERVAL : Q := 1%Q.

(** [CocoaMemory.get_status]: the returned dict, one field per key
    ([uid] is kept as the identifier, not its [str]). *)
Record MemStatus : Type := mkMemStatus {
  ms_connected : bool;
  ms_uid : option Z;
  ms_timestamp : option Z;
  ms_config : option Config;
  ms_changes_pending : bool
}.

Definition get_status (s : CState) : MemStatus :=
  {| ms_connected := connected s;
     ms_uid := option_map uid (header s);
     ms_timestamp := option_map timestamp (header s);
     ms_config := config s;
     ms_changes_pending := negb (opt_config_eqb (last_config s) (config s)) |}.

Section Lifecycle.

Variable D : Type.
Variable dev_read : D -> Z -> Z -> option (list Z).
Variable dev_write : D -> Z -> list Z -> option D.
Variable dumps : Value -> option (list Z).
Variable loads : list Z -> option Config.

(** [CocoaMemory.has_changes] *)
Definition has_changes : M (World D) bool :=
  w <- get_state ;;
  ret (negb (opt_config_eqb (config (w_st w)) (last_config (w_st w)))).

(** [CocoaMemory._autosave]; [now] is the reading of [timestamp_utc()] by
    [save]. *)
Definition autosave (now : Z) (eventtime : Q) : M (World D) Q :=
  c <- has_changes ;;
  (if c then save dev_write dumps now else ret tt) ;;;
  ret (eventtime + AUTOSAVE_INTERVAL)%Q.

(** What can happen to the controller and its device: the reactor callbacks
    ([_attached], [_on_detach], [_autosave]), [save] and the facade methods
    called by other modules, and the toolhead being swapped for another
    (a different device). *)
Inductive Op : Type :=
| OpAttach (u t0 t1 : Z) (name : string)
| OpDetach
| OpAutosave (now : Z) (eventtime : Q)
| OpSave (now : Z)
| OpHas (k : string)
| OpGet (k : string) (default : option Value)
| OpSet (k : string) (v : Value)
| OpSetdefault (k : string) (d : Value)
| OpDelete (k : string)
| OpSwap (d : D).

Definition run_op (o : Op) : M (World D) unit :=
  match o with
  | OpAttach u t0 t1 name => attached dev_read dev_write dumps loads u t0 t1 name
  | OpDetach => on_detach
  | OpAutosave now et => autosave now et ;;; ret tt
  | OpSave now => save dev_write dumps now
  | OpHas k => has k ;;; ret tt
  | OpGet k d => get k d ;;; ret tt
  | OpSet k v => set k v
  | OpSetdefault k d => setdefault k d ;;; ret tt
  | OpDelete k => delete k
  | OpSwap d => modify (fun w => {| w_dev := d; w_st := w_st w;
                                    w_trace := w_trace w |})
  end.

(** A run: each operation starts from the state the previous one reached,
    whether it returned or raised (the reactor goes on after an exception). *)
Fixpoint run_ops (os : list Op) (w : World D) : World D :=
  match os with
  | [] => w
  | o :: r => run_ops r (snd (run_op o w))
  end.

End Lifecycle.

Arguments has_changes {D}.
Arguments autosave {D} dev_write dumps now eventtime.
Arguments OpSwap {D} d.
Arguments OpAttach {D} u t0 t1 name.
Arguments OpDetach {D}.
Arguments OpAutosave {D} now eventtime.
Arguments OpSave {D} now.
Arguments OpHas {D} k.
Arguments OpGet {D} k default.
Arguments OpSet {D} k v.
Arguments OpSetdefault {D} k d.
Arguments OpDelete {D} k.
Arguments run_op {D} dev_read dev_write dumps loads o.
Arguments run_ops {D} dev_read dev_write dumps loads os w.

(* ------------------------------------------------------------------ *)
(** ** Concrete collaborators, to run the controller on examples *)

(** Modelled from the spec: the memory device driver (klippy/extras/memory.py,
    not among the sources).  §6: a device of fixed [capacity] with
    [read(address, length) -> bytes or failure] and
    [write(address, bytes) -> success or failure]; here a byte array whose
    accesses fail outside the capacity. *)
Definition ldev_read (m : list Z) (a n : Z) : option (list Z) :=
  if (0 <=? a) && (0 <=? n) && (a + n <=? Z.of_nat (length m))
  then Some (firstn (Z.to_nat n) (skipn (Z.to_nat a) m))
  else None.

Definition ldev_write (m : list Z) (a : Z) (b : list Z) : option (list Z) :=
  if (0 <=? a) && (a + Z.of_nat (length b) <=? Z.of_nat (length m))
  then Some (firstn (Z.to_nat a) m ++ b
             ++ skipn (Z.to_nat a + length b) m)
  else None.

(** A fragment of MessagePack (the [msgpack] package the module imports):
    nil, booleans, positive fixints, fixstr, fixarray and fixmap. *)
Definition bytes_of_string (s : string) : list Z :=
  map (fun a => Z.of_nat (Ascii.nat_of_ascii a)) (list_ascii_of_string s).
Definition string_of_bytes (b : list Z) : string :=
  string_of_list_ascii (map (fun x => Ascii.ascii_of_nat (Z.to_nat x)) b).

Definition mp_str (s : string) : option (list Z) :=
  let b := bytes_of_string s in
  if (length b <? 32)%nat then Some ((160 + Z.of_nat (length b)) :: b)
  else None.

Fixpoint mp_dumps (v : Value) : option (list Z) :=
  let fix items (l : list Value) : option (list Z) :=
    match l with
    | [] => Some []
    | x :: r => match mp_dumps x, items r with
                | Some a, Some b => Some (a ++ b)
                | _, _ => None
                end
    end in
  let fix entries (l : list (string * Value)) : option (list Z) :=
    match l with
    | [] => Some []
    | (k, x) :: r => match mp_str k, mp_dumps x, entries r with
                     | Some a, Some b, Some c => Some (a ++ b ++ c)
                     | _, _, _ => None
                     end
    end in
  match v with
  | VNil => Some [192]
  | VBool false => Some [194]
  | VBool true => Some [195]
  | VInt z => if (0 <=? z) && (z <? 128) then Some [z] else None
  | VStr s => mp_str s
  | VList l => if (length l <? 16)%nat
               then option_map (cons (144 + Z.of_nat (length l))) (items l)
               else None
  | VMap m => if (length m <? 16)%nat
              then option_map (cons (128 + Z.of_nat (length m))) (entries m)
              else None
  end.

(** Decoder for a fixmap of fixstr keys and scalar values. *)
Definition mp_scalar (b : list Z) : option (Value * list Z) :=
  match b with
  | [] => None
  | x :: r =>
      if x =? 192 then Some (VNil, r)
      else if x =? 194 then Some (VBool false, r)
      else if x =? 195 then Some (VBool true, r)
      else if (0 <=? x) && (x <? 128) then Some (VInt x, r)
      else if (160 <=? x) && (x <? 192) then
        let n := Z.to_nat (x - 160) in
        if (n <=? length r)%nat
        then Some (VStr (string_of_bytes (firstn n r)), skipn n r)
        else None
      else None
  end.

Fixpoint mp_entries (n : nat) (b : list Z) : option (Config * list Z) :=
  match n with
  | O => Some ([], b)
  | S m =>
      match mp_scalar b with
      | Some (VStr k, r) =>
          match mp_scalar r with
          | Some (v, r') =>
              match mp_entries m r' with
              | Some (c, r'') => Some ((k, v) :: c, r'')
              | None => None
              end
          | None => None
          end
      | _ => None
      end
  end.

Definition mp_loads (b : list Z) : option Config :=
  match b with
  | x :: r =>
      if (128 <=? x) && (x <? 144) then
        match mp_entries (Z.to_nat (x - 128)) r with
        | Some (c, []) => Some c
        | _ => None
        end
      else None
  | [] => None
  end.

(** A controller that has never been attached. *)
Definition init_state : CState :=
  {| connected := false; header := None; config := None;
     last_header := None; last_config := None; timer_armed := false |}.

Definition world0 (m : list Z) : World (list Z) :=
  {| w_dev := m; w_st := init_state; w_trace := [] |}.

Arguments crc16_ccitt : simpl never.

(* ------------------------------------------------------------------ *)
(** ** Auxiliary definitions for the proofs *)

(** [crc16_update] with the [|] of two disjoint bit ranges written as [^];
    equal to it on 16-bit states. *)
Definition crc16_update_x (crc data : Z) : Z :=
  let d1 := Z.lxor data (Z.land crc 255) in
  let d2 := Z.lxor d1 (Z.shiftl (Z.land d1 15) 4) in
  Z.lxor (Z.lxor (Z.lxor (Z.shiftl d2 8) (Z.shiftr crc 8)) (Z.shiftr d2 4))
         (Z.shiftl d2 3).

(** Boolean check of [p] on [0 .. n-1]. *)
Fixpoint all_below (n : nat) (p : Z -> bool) : bool :=
  match n with
  | O => true
  | S m => p (Z.of_nat m) && all_below m p
  end.

(** Flipping bit [k] of byte [i] of a byte string. *)
Fixpoint flip_bit (b : list Z) (i : nat) (k : Z) : list Z :=
  match b, i with
  | [], _ => []
  | x :: r, O => Z.lxor x (2 ^ k) :: r
  | x :: r, S j => x :: flip_bit r j k
  end.

(** Headers built by the codec: [Header()] and [Header.update(data=...)],
    with identifiers of [uuid.UUID] (128 bits), clock readings that fit the
    32-bit timestamp field, and payloads whose length fits the 16-bit length
    field. *)
Inductive produced : Header -> Prop :=
| produced_new : forall u t,
    0 <= u < 2 ^ 128 -> 0 <= t < 2 ^ 32 -> produced (Header_new u t)
| produced_update : forall h d t,
    produced h -> Z.of_nat (length d) < 2 ^ 16 -> 0 <= t < 2 ^ 32 ->
    produced (update h d t).

(** The controller state right after [_attached] took the [HeaderError]
    branch, before it calls [save]. *)
Definition init_branch_state (u t0 : Z) (name : string) (s : CState) : CState :=
  set_config (Some [("name"%string, VStr name)])
    (set_header (Some (Header_new u t0))
       (set_last_header (Some (Header_new u t0)) (set_connected true s))).

(** Concrete scenarios. *)

(** The msgpack encoding of [{"name": "T0"}]. *)
Definition payload_T0 : list Z := [129; 164; 110; 97; 109; 101; 162; 84; 48].

(** A valid header announcing a 9-byte payload with a wrong data checksum. *)
Definition header_bad_dcrc : Header :=
  {| magic := HEADER_MAGIC; version := HEADER_VERSION; uid := 7;
     timestamp := 100; data_page := 0; data_length := 9;
     data_checksum := [0; 0] |}.

(** A 512-byte device: that header at 0 and [payload_T0] at 256. *)
Definition device_bad_dcrc : list Z :=
  match to_bytes header_bad_dcrc with Some hb => hb | None => [] end
  ++ repeat 0 224 ++ payload_T0 ++ repeat 0 247.

(** The encoding of the fresh header [Header_new 7 100]. *)
Definition header_T0_bytes : list Z :=
  match to_bytes (Header_new 7 100) with Some b => b | None => [] end.

(** A factory-blank device of 1024 bytes. *)
Definition device_blank : list Z := repeat 255 1024.

(** A connected controller holding [{"name": "T0"}] and a fresh header. *)
Definition connected_state : CState :=
  set_connected true (set_header (Some (Header_new 7 100))
    (set_config (Some [("name"%string, VStr "T0")]) init_state)).

Definition connected_world : World (list Z) :=
  {| w_dev := repeat 0 512; w_st := connected_state; w_trace := [] |}.

(** Headers [to_bytes] encodes and [from_bytes] decodes back: every field
    in the range of its [struct] code, with the constant magic and version. *)
Definition header_wf (h : Header) : Prop :=
  magic h = HEADER_MAGIC /\ version h = HEADER_VERSION /\
  0 <= uid h < 2 ^ 128 /\ 0 <= timestamp h < 2 ^ 32 /\
  0 <= data_page h < 256 /\ 0 <= data_length h < 2 ^ 16 /\
  length (data_checksum h) = 2%nat.

(** The fields [save] does not rewrite: constant magic and version and a
    128-bit identifier. *)
Definition header_ok (h : Header) : Prop :=
  magic h = HEADER_MAGIC /\ version h = HEADER_VERSION /\ 0 <= uid h < 2 ^ 128.

(** A run from a blank device: the first attach initializes it. *)
Definition world_after_init : World (list Z) :=
  run_ops ldev_read ldev_write mp_dumps mp_loads [OpAttach 7 100 101 "T0"]
    (world0 device_blank).

Definition header_after_init : Header := update (Header_new 7 100) payload_T0 101.

(** A device whose valid header announces 9 payload bytes at 256 that do
    not decode (they are zeros). *)
Definition device_undecodable : list Z :=
  match to_bytes header_bad_dcrc with Some hb => hb | None => [] end
  ++ repeat 0 480.

(** A device holding a fresh header (no payload). *)
Definition device_fresh : list Z := header_T0_bytes ++ repeat 0 480.

(** [self.config] and [self._last_config] are [None] or well-formed dicts. *)
Definition state_wf (s : CState) : bool :=
  value_wf (config_value (config s)) && value_wf (config_value (last_config s)).


(* ------------------------------------------------------------------ *)
(** ** The toolhead's use of the memory (toolhead.py) *)

Section ToolheadMemory.

Variable D : Type.

(** [CocoaToolheadControl._preheater_update]; [remaining] is
    [int(self.preheater.time_remaining)]. *)
Definition preheater_update (remaining : Z) : M (World D) unit :=
  w <- get_state ;;
  if negb (connected (w_st w)) then ret tt
  else set "preheater" (VMap [("status"%string, VStr "preheating");
                              ("remaining"%string, VInt remaining)]).

(** [CocoaToolheadControl._preheater_started] *)
Definition preheater_started (profile : Value) (remaining : Z)
  : M (World D) unit :=
  w <- get_state ;;
  if negb (connected (w_st w)) then ret tt
  else set "profile" profile ;;; preheater_update remaining.

(** [CocoaToolheadControl._preheater_stopped] ([profile] is unused). *)
Definition preheater_stopped (profile reason : Value) (remaining : Z)
  : M (World D) unit :=
  w <- get_state ;;
  if negb (connected (w_st w)) then ret tt
  else set "preheater" (VMap [("status"%string, VStr "stopped");
                              ("reason"%string, reason);
                              ("remaining"%string, VInt remaining)]).

(** The memory part of the [set_temp] that [inject_temp_callback] installs,
    run once [orig_set_temp(degrees)] has returned; [target] is
    [heater.target_temp].  [setdefault] returns the dict held under
    ["heaters"] itself (never shared with [_last_config], a deep copy), so
    [[name] = target] updates the record in place; on anything but a dict
    the item assignment raises a TypeError. *)
Definition set_temp_hook (name : string) (target : Value) : M (World D) unit :=
  w <- get_state ;;
  if negb (connected (w_st w)) then ret tt
  else
    hs <- setdefault "heaters" (VMap []) ;;
    match hs with
    | VMap m =>
        st_update (fun s =>
          set_config (option_map (fun c =>
                        dict_set c "heaters" (VMap (dict_set m name target)))
                        (config s)) s)
    | _ => raise TypeOrAttributeError
    end.

End ToolheadMemory.

Arguments preheater_update {D} remaining.
Arguments preheater_started {D} profile remaining.
Arguments preheater_stopped {D} profile reason remaining.
Arguments set_temp_hook {D} name target.

(** The attachment detection of [CocoaToolheadControl]: the ADC callback
    installed by [inject_adc_callback] and [receive_sensor_value].  [T] is
    the type of read times, [R] that of ADC readings, and [below_open v] is
    [v < OPEN_ADC_VALUE]. *)
Section Detection.

Variables T R : Type.
Variable below_open : R -> bool.

(** [self.attached] ([None] until the first reading) and
    [self.last_readings], keyed by heater name. *)
Record TState : Type := mkTState {
  th_attached : option bool;
  th_readings : list (string * R)
}.

(** What the callbacks do outside the toolhead object: call the sensor's
    own [adc_callback], switch the heater off ([set_pwm(read_time, 0.0)]),
    clear [verify_heater.error], and send the attached or detached event
    (with its console message and gcode template). *)
Inductive TOut : Type :=
| OSensor (heater : string) (t : T) (v : R)
| OPwmOff (heater : string) (t : T)
| OVerifyReset (heater : string)
| OEdge (attached : bool).

(** [d[k] = v] on [last_readings]. *)
Fixpoint readings_set (m : list (string * R)) (k : string) (v : R)
  : list (string * R) :=
  match m with
  | [] => [(k, v)]
  | (k', v') :: r =>
      if String.eqb k k' then (k', v) :: r else (k', v') :: readings_set r k v
  end.

(** [is_attached != self.attached]: a bool differs from [None]. *)
Definition receive_sensor_value (heater : string) (v : R) (s : TState)
  : TState * list TOut :=
  let readings := readings_set (th_readings s) heater v in
  let is_attached := below_open v in
  match th_attached s with
  | Some a => if Bool.eqb is_attached a
              then ({| th_attached := Some a; th_readings := readings |}, [])
              else ({| th_attached := Some is_attached;
                       th_readings := readings |}, [OEdge is_attached])
  | None => ({| th_attached := Some is_attached; th_readings := readings |},
             [OEdge is_attached])
  end.

(** [new_callback(read_time, read_value)] for the heater [heater]. *)
Definition new_callback (heater : string) (t : T) (v : R) (s : TState)
  : TState * list TOut :=
  let acts := if below_open v then [OSensor heater t v]
              else [OPwmOff heater t; OVerifyReset heater] in
  let (s', evs) := receive_sensor_value heater v s in
  (s', acts ++ evs).

(** A stream of readings, each from one of the heaters. *)
Fixpoint receive_all (rs : list (string * R)) (s : TState)
  : TState * list TOut :=
  match rs with
  | [] => (s, [])
  | (h, v) :: r =>
      let (s1, o1) := receive_sensor_value h v s in
      let (s2, o2) := receive_all r s1 in
      (s2, o1 ++ o2)
  end.

Fixpoint adc_all (rs : list (string * T * R)) (s : TState)
  : TState * list TOut :=
  match rs with
  | [] => (s, [])
  | (h, t, v) :: r =>
      let (s1, o1) := new_callback h t v s in
      let (s2, o2) := adc_all r s1 in
      (s2, o1 ++ o2)
  end.

(** The attached / detached events of an output. *)
Definition edges (o : list TOut) : list bool :=
  flat_map (fun x => match x with OEdge b => [b] | _ => [] end) o.

(** The readings handed on to [sensor.adc_callback]. *)
Definition sensor_calls (o : list TOut) : list (string * T * R) :=
  flat_map (fun x => match x with OSensor h t v => [(h, t, v)] | _ => [] end) o.

(** The heaters switched off, with the read times. *)
Definition pwm_offs (o : list TOut) : list (string * T) :=
  flat_map (fun x => match x with OPwmOff h t => [(h, t)] | _ => [] end) o.

End Detection.

Arguments mkTState {R} th_attached th_readings.
Arguments th_attached {R} t.
Arguments th_readings {R} t.
Arguments OSensor {T R} heater t v.
Arguments OPwmOff {T R} heater t.
Arguments OVerifyReset {T R} heater.
Arguments OEdge {T R} attached.
Arguments receive_sensor_value {T R} below_open heater v s.
Arguments new_callback {T R} below_open heater t v s.
Arguments receive_all {T R} below_open rs s.
Arguments adc_all {T R} below_open rs s.
Arguments edges {T R} o.
Arguments sensor_calls {T R} o.
Arguments pwm_offs {T R} o.

(** [l] is a sequence of attached (true) / detached (false) events each
    differing from the state before it, starting from [a]. *)
Fixpoint alternates_from (a : option bool) (l : list bool) : Prop :=
  match l with
  | [] => True
  | b :: r => a <> Some b /\ alternates_from (Some b) r
  end.

(* ------------------------------------------------------------------ *)
(** ** Nozzle offsets per tool (nozzle_offsets.py) *)

(** [self._prefix]: [f"z_offset_{mux_name}_"] when [mux_name] is truthy. *)
Definition offsets_prefix (mux_name : option string) : string :=
  match mux_name with
  | Some m => if String.eqb m "" then "z_offset_" else "z_offset_" ++ m ++ "_"
  | None => "z_offset_"
  end.

(** [F] is the type of Python floats, with [fzero] ([0.0]), [fneg]
    (unary minus) and [fround4] ([round(x, 4)]); [uid_str] is [str] on
    identifiers.  [V] is the state of [save_variables]: [vars_get] is
    [allVariables.get(k)] and [vars_save] its [save(k, v)], [None] when it
    raises.  The [SET_GCODE_OFFSET Z_ADJUST=...] scripts run are recorded
    by their [Z_ADJUST] values. *)
Section NozzleOffsets.

Variables F V : Type.
Variable fzero : F.
Variable fneg fround4 : F -> F.
Variable uid_str : Z -> string.
Variable vars_get : V -> string -> option F.
Variable vars_save : V -> string -> F -> option V.
Variable prefix : string.

(** [_current_tool], [_current_offset], [save_variables] and the
    [Z_ADJUST]s issued so far. *)
Record NState : Type := mkNState {
  n_tool : option string;
  n_offset : F;
  n_vars : V;
  n_adjusts : list F
}.

Definition opt_str_eqb (a b : option string) : bool :=
  match a, b with
  | Some x, Some y => String.eqb x y
  | None, None => true
  | _, _ => false
  end.

(** [_memory_ready(connected, config)], with [memory.header] the header of
    the memory controller; [None] when [memory.header.uid] raises (no
    header), before any attribute is assigned. *)
Definition memory_ready (connected : bool) (hdr : option Header) (s : NState)
  : option NState :=
  let tool := if connected then option_map (fun h => uid_str (uid h)) hdr
              else Some "generic"%string in
  match tool with
  | None => None
  | Some t =>
      let off := match vars_get (n_vars s) (prefix ++ t) with
                 | Some x => x
                 | None => fzero
                 end in
      Some {| n_tool := Some t; n_offset := off; n_vars := n_vars s;
              n_adjusts := n_adjusts s ++ [off] |}
  end.

(** [_on_detach] *)
Definition offsets_on_detach (s : NState) : NState :=
  {| n_tool := None; n_offset := fzero; n_vars := n_vars s;
     n_adjusts := n_adjusts s ++ [fneg (n_offset s)] |}.

(** [cmd_SET_NOZZLE_OFFSET] with its [UID] and [OFFSET] (defaults already
    applied); [None] when it raises, which happens before any change. *)
Definition cmd_SET_NOZZLE_OFFSET (uid : string) (offset : F) (s : NState)
  : option NState :=
  let tool := if String.eqb uid "current" then n_tool s else Some uid in
  match tool with
  | None => None
  | Some u =>
      match vars_save (n_vars s) (prefix ++ u) (fround4 offset) with
      | None => None
      | Some v' =>
          Some {| n_tool := n_tool s;
                  n_offset := if opt_str_eqb (n_tool s) (Some u) then offset
                              else n_offset s;
                  n_vars := v'; n_adjusts := n_adjusts s |}
      end
  end.

(** A sequence of [SET_NOZZLE_OFFSET] commands, stopping at the first one
    that raises. *)
Fixpoint set_offsets (cs : list (string * F)) (s : NState) : option NState :=
  match cs with
  | [] => Some s
  | (u, x) :: r =>
      match cmd_SET_NOZZLE_OFFSET u x s with
      | Some s1 => set_offsets r s1
      | None => None
      end
  end.

End NozzleOffsets.

Arguments mkNState {F V} n_tool n_offset n_vars n_adjusts.
Arguments n_tool {F V} n.
Arguments n_offset {F V} n.
Arguments n_vars {F V} n.
Arguments n_adjusts {F V} n.
Arguments memory_ready {F V} fzero uid_str vars_get prefix connected hdr s.
Arguments offsets_on_detach {F V} fzero fneg s.
Arguments cmd_SET_NOZZLE_OFFSET {F V} fround4 vars_save prefix uid offset s.
Arguments set_offsets {F V} fround4 vars_save prefix cs s.

(* ================================================================== *)
(** * Properties *)

Ltac unfold_monad :=
  unfold mem_read, mem_write in *; unfold st_update, emit in *;
  unfold bind, ret, raise, get_state, modify, catch in *.

(** ** Header.update *)

(** C8: [Header.update(data=d)] yields a header whose [data_length] is
    [len(d)], whose [data_checksum] is the CRC of [d] and whose [timestamp]
    is the clock reading, while [magic], [version], [uid] and [data_page]
    are those of [h]; [h] is a value and is left as it is. *)
Theorem update_fields : forall h d now,
  let h' := update h d now in
  data_length h' = Z.of_nat (length d) /\
  data_checksum h' = crc16_ccitt d /\
  timestamp h' = now /\
  magic h' = magic h /\ version h' = version h /\
  uid h' = uid h /\ data_page h' = data_page h.
Proof. intros; repeat split. Qed.

(** ** The key-value facade *)

(** C9: while not connected every facade operation raises
    [MemoryNotConnected] and leaves the controller (and the device) as it
    was; while connected, [get] without a default on a missing key raises
    [KeyNotFound], and [get] with a default returns the default. *)
Theorem facade_not_connected_and_get_missing :
  forall (D : Type) (w : World D) (k : string) (c : Config) (d v : Value),
  (connected (w_st w) = false ->
     has k w = (Raise MemoryNotConnected, w) /\
     get k None w = (Raise MemoryNotConnected, w) /\
     get k (Some d) w = (Raise MemoryNotConnected, w) /\
     set k v w = (Raise MemoryNotConnected, w) /\
     setdefault k d w = (Raise MemoryNotConnected, w) /\
     delete k w = (Raise MemoryNotConnected, w)) /\
  (connected (w_st w) = true -> config (w_st w) = Some c ->
     dict_get c k = None ->
     get k None w = (Raise KeyNotFound, w) /\
     get k (Some d) w = (Ok d, w)).
Proof.
  intros D w k c d v; split.
  - intros Hc.
    unfold has, get, set, setdefault, delete, require_config; unfold_monad.
    rewrite Hc; repeat split.
  - intros Hc Hcfg Hk.
    unfold get, require_config; unfold_monad.
    rewrite Hc, Hcfg; simpl; rewrite Hk; split; reflexivity.
Qed.

(** C10: while connected, deleting a key the record does not hold raises
    nothing and changes nothing. *)
Theorem delete_missing_noop :
  forall (D : Type) (w : World D) (k : string) (c : Config),
  connected (w_st w) = true -> config (w_st w) = Some c ->
  dict_mem c k = false ->
  delete k w = (Ok tt, w).
Proof.
  intros D w k c Hc Hcfg Hk.
  unfold delete, require_config; unfold_monad.
  rewrite Hc, Hcfg; simpl; rewrite Hk; reflexivity.
Qed.

(** ** Save *)

(** C3: [save] writes the payload at the payload address strictly before it
    writes the encoded header at address 0: the device writes it performs
    are none, the payload write alone, or the payload write followed by the
    header write.  Only when both writes succeed does it make the new header
    current and refresh the last-persisted record to the current record; when
    it raises, the current header and the last-persisted record are those it
    started with. *)
Theorem save_payload_before_header :
  forall (D : Type) dev_write dumps now (w w' : World D) r,
  save dev_write dumps now w = (r, w') ->
  exists tr, w_trace w' = w_trace w ++ tr /\
  (tr = [] \/
   exists payload h,
     dumps (config_value (config (w_st w))) = Some payload /\
     header (w_st w) = Some h /\
     (tr = [EvWrite (get_data_address (update h payload now)) payload] \/
      exists hb, to_bytes (update h payload now) = Some hb /\
        tr = [EvWrite (get_data_address (update h payload now)) payload;
              EvWrite 0 hb])) /\
  (r = Ok tt ->
   exists payload h hb,
     dumps (config_value (config (w_st w))) = Some payload /\
     header (w_st w) = Some h /\
     to_bytes (update h payload now) = Some hb /\
     tr = [EvWrite (get_data_address (update h payload now)) payload;
           EvWrite 0 hb] /\
     header (w_st w') = Some (update h payload now) /\
     last_config (w_st w') = config (w_st w) /\
     config (w_st w') = config (w_st w)) /\
  (r <> Ok tt ->
   header (w_st w') = header (w_st w) /\
   last_config (w_st w') = last_config (w_st w)).
Proof.
  intros D dev_write dumps now w w' r H.
  unfold save in H; unfold_monad.
  destruct (dumps (config_value (config (w_st w)))) as [payload|] eqn:Ed.
  2:{ inversion H; subst; exists []; rewrite app_nil_r.
      repeat split; auto; intros E; discriminate E. }
  destruct (header (w_st w)) as [h|] eqn:Eh.
  2:{ inversion H; subst; exists []; rewrite app_nil_r.
      repeat split; auto; intros E; discriminate E. }
  simpl in H.
  destruct (dev_write (w_dev w) (get_data_address (update h payload now))
              payload) as [d1|] eqn:Ew1.
  2:{ inversion H; subst; simpl.
      exists [EvWrite (get_data_address (update h payload now)) payload].
      split; [reflexivity|]. split; [right; exists payload, h; split; [|split]; auto|].
      split; [intros E; discriminate E|auto]. }
  destruct (to_bytes (update h payload now)) as [hb|] eqn:Et.
  2:{ inversion H; subst; simpl.
      exists [EvWrite (get_data_address (update h payload now)) payload].
      split; [reflexivity|]. split; [right; exists payload, h; split; [|split]; auto|].
      split; [intros E; discriminate E|auto]. }
  simpl in H.
  destruct (dev_write d1 0 hb) as [d2|] eqn:Ew2.
  - inversion H; subst; simpl.
    exists [EvWrite (get_data_address (update h payload now)) payload;
            EvWrite 0 hb].
    split; [rewrite <- app_assoc; reflexivity|].
    split; [right; exists payload, h; split; [|split]; auto; right; eauto|].
    split; [intros _; exists payload, h, hb; repeat split; auto|].
    intros E; exfalso; apply E; reflexivity.
  - inversion H; subst; simpl.
    exists [EvWrite (get_data_address (update h payload now)) payload;
            EvWrite 0 hb].
    split; [rewrite <- app_assoc; reflexivity|].
    split; [right; exists payload, h; split; [|split]; auto; right; eauto|].
    split; [intros E; discriminate E|auto].
Qed.

(** ** Attach *)

(** C4: when the header read at address 0 fails to decode with a
    [HeaderError] ([InvalidMagic], [InvalidVersion] or [InvalidChecksum]),
    [_attached] does not raise it: it marks the controller connected, makes
    [Header()] (identifier [uuid1()], data page 0, data length 0 and data
    checksum [NULL_CRC16], the CRC of the empty sequence) both the current
    and the last header, sets the record to [{"name": generate_name()}] and
    saves at once, then arms the timer and reports readiness. *)
Theorem attached_header_error_initializes :
  forall (D : Type) dev_read dev_write dumps loads u t0 t1 name
         (w : World D) hd e,
  dev_read (w_dev w) 0 32 = Some hd ->
  from_bytes hd = Raise e -> is_header_error e = true ->
  attached dev_read dev_write dumps loads u t0 t1 name w =
    (save dev_write dumps t1 ;;; attach_finish)
      {| w_dev := w_dev w;
         w_st := init_branch_state u t0 name (w_st w);
         w_trace := w_trace w ++ [EvRead 0 32] |} /\
  connected (init_branch_state u t0 name (w_st w)) = true /\
  header (init_branch_state u t0 name (w_st w)) = Some (Header_new u t0) /\
  last_header (init_branch_state u t0 name (w_st w)) = Some (Header_new u t0) /\
  config (init_branch_state u t0 name (w_st w)) =
    Some [("name"%string, VStr name)] /\
  uid (Header_new u t0) = u /\ data_page (Header_new u t0) = 0 /\
  data_length (Header_new u t0) = 0 /\
  data_checksum (Header_new u t0) = NULL_CRC16.
Proof.
  intros D dev_read dev_write dumps loads u t0 t1 name w hd e Hr Hd He.
  repeat split.
  unfold attached; unfold_monad; simpl.
  rewrite Hr, Hd, He; simpl.
  unfold init_branch_state; reflexivity.
Qed.

(** ** Decoding the header *)

Lemma from_bytes_32 : forall v, length v = HEADER_SIZE ->
  from_bytes v =
  if list_eq_dec Z.eq_dec (firstn 2 v) HEADER_MAGIC then
    if negb (nth 2 v 0 =? HEADER_VERSION) then Raise InvalidVersion
    else if list_eq_dec Z.eq_dec (crc16_ccitt (firstn 30 v)) (skipn 30 v)
    then header_unpack v
    else Raise InvalidChecksum
  else Raise InvalidMagic.
Proof.
  intros v Hl. unfold from_bytes, py_drop_last2, py_last2.
  rewrite Hl. rewrite (nth_error_nth' v 0) by (rewrite Hl; unfold HEADER_SIZE; lia).
  reflexivity.
Qed.

Lemma header_unpack_32 : forall v, length v = HEADER_SIZE ->
  exists h, header_unpack v = Ok h.
Proof.
  intros v Hl; unfold header_unpack; rewrite Hl; simpl; eauto.
Qed.

(** C6: on a 32-byte input, [Header.from_bytes] raises [InvalidMagic] iff
    the first two bytes are not the magic; otherwise [InvalidVersion] iff
    the third byte is not the version; otherwise [InvalidChecksum] iff the
    last two bytes are not the CRC of the first 30; otherwise it returns a
    header. *)
Theorem from_bytes_check_order : forall v, length v = HEADER_SIZE ->
  (from_bytes v = Raise InvalidMagic <-> firstn 2 v <> HEADER_MAGIC) /\
  (firstn 2 v = HEADER_MAGIC ->
     (from_bytes v = Raise InvalidVersion <-> nth 2 v 0 <> HEADER_VERSION)) /\
  (firstn 2 v = HEADER_MAGIC -> nth 2 v 0 = HEADER_VERSION ->
     (from_bytes v = Raise InvalidChecksum <->
        crc16_ccitt (firstn 30 v) <> skipn 30 v)) /\
  (firstn 2 v = HEADER_MAGIC -> nth 2 v 0 = HEADER_VERSION ->
     crc16_ccitt (firstn 30 v) = skipn 30 v ->
     exists h, from_bytes v = Ok h).
Proof.
  intros v Hl. rewrite (from_bytes_32 v Hl).
  destruct (header_unpack_32 v Hl) as [h Hh]; rewrite Hh.
  destruct (list_eq_dec Z.eq_dec (firstn 2 v) HEADER_MAGIC) as [Em|Em];
    [|repeat split; intros; try congruence; exfalso; auto].
  destruct (Z.eqb_spec (nth 2 v 0) HEADER_VERSION) as [Ev|Ev]; cbn [negb];
    [|repeat split; intros; try congruence; exfalso; auto].
  destruct (list_eq_dec Z.eq_dec (crc16_ccitt (firstn 30 v)) (skipn 30 v))
    as [Ec|Ec]; repeat split; intros; try congruence; eauto.
Qed.

(** ** Encoding the header *)

Lemma length_le_bytes : forall n x, length (le_bytes n x) = n.
Proof. induction n; intros; simpl; auto. Qed.

Lemma length_be_bytes : forall n x, length (be_bytes n x) = n.
Proof. intros; unfold be_bytes; rewrite length_rev; apply length_le_bytes. Qed.

Lemma le_int_le_bytes : forall n x,
  le_int (le_bytes n x) = x mod 2 ^ (8 * Z.of_nat n).
Proof.
  induction n as [|n IH]; intros x.
  - simpl. rewrite Z.mod_1_r. reflexivity.
  - cbn [le_bytes le_int]. rewrite IH.
    replace (8 * Z.of_nat (S n)) with (8 + 8 * Z.of_nat n) by lia.
    rewrite Z.pow_add_r by lia.
    rewrite Z.rem_mul_r by (try apply Z.pow_pos_nonneg; lia).
    reflexivity.
Qed.

Lemma be_int_be_bytes : forall n x,
  be_int (be_bytes n x) = x mod 2 ^ (8 * Z.of_nat n).
Proof.
  intros; unfold be_int, be_bytes; rewrite rev_involutive.
  apply le_int_le_bytes.
Qed.

Lemma pack_s_exact : forall n b, length b = n -> pack_s n b = b.
Proof.
  intros n b Hl; unfold pack_s; subst n.
  rewrite firstn_all, Nat.sub_diag, app_nil_r; reflexivity.
Qed.

Lemma pack_uint_ok : forall n v, 0 <= v < 2 ^ (8 * Z.of_nat n) ->
  pack_uint n v = Some (le_bytes n v).
Proof.
  intros n v Hv; unfold pack_uint.
  rewrite (proj2 (Z.leb_le 0 v)) by lia.
  rewrite (proj2 (Z.ltb_lt _ _)) by lia. reflexivity.
Qed.

Lemma crc16_shape : forall l, exists a b, crc16_ccitt l = [a; b].
Proof. intros; unfold crc16_ccitt; eauto. Qed.

Lemma produced_wf : forall h, produced h ->
  magic h = HEADER_MAGIC /\ version h = HEADER_VERSION /\
  0 <= uid h < 2 ^ 128 /\ 0 <= timestamp h < 2 ^ 32 /\ data_page h = 0 /\
  0 <= data_length h < 2 ^ 16 /\ length (data_checksum h) = 2%nat.
Proof.
  induction 1 as [u t Hu Ht|h d t Hp IH Hd Ht];
    unfold update, Header_new;
    cbn [magic version uid timestamp data_page data_length data_checksum].
  - repeat split; auto; lia.
  - destruct IH as (Hm & Hv & Hu & _ & Hpg & _ & _).
    destruct (crc16_shape d) as (a & b & E); rewrite E.
    repeat split; auto; lia.
Qed.

(** Splits a list of known length into its elements. *)
Ltac explode H :=
  match type of H with
  | length ?l = O => destruct l; [clear H | discriminate H]
  | length ?l = S _ =>
      let a := fresh "x" in
      destruct l as [|a l]; [discriminate H | simpl in H; injection H as H;
                             explode H]
  end.

(** C2: every header built by [Header()] or [Header.update] (with a
    payload whose length fits in 16 bits) is encoded by [to_bytes] and
    decoded back by [from_bytes] to an equal header. *)
Theorem header_roundtrip : forall h, produced h ->
  exists b, to_bytes h = Some b /\ from_bytes b = Ok h.
Proof.
  intros h Hp.
  destruct (produced_wf h Hp) as (Hm & Hv & Hu & Ht & Hpg & Hl & Hc).
  destruct h as [m v u t p l c];
    cbn [magic version uid timestamp data_page data_length data_checksum] in *;
    subst m v p.
  unfold to_bytes, header_pack.
  cbn [magic version uid timestamp data_page data_length data_checksum].
  rewrite (pack_uint_ok 4 t Ht), (pack_uint_ok 2 l Hl).
  change (pack_uint 1 HEADER_VERSION) with (Some [1]).
  change (pack_uint 1 0) with (Some [0]).
  rewrite (pack_s_exact 16 (be_bytes 16 u)) by apply length_be_bytes.
  rewrite (pack_s_exact 2 c) by exact Hc.
  pose proof (length_be_bytes 16 u) as LU.
  pose proof (length_le_bytes 4 t) as LT.
  pose proof (length_le_bytes 2 l) as LL.
  remember (be_bytes 16 u) as U eqn:HU.
  remember (le_bytes 4 t) as T eqn:HT.
  remember (le_bytes 2 l) as L eqn:HL.
  explode LU. explode LT. explode LL. explode Hc.
  cbn.
  eexists; split; [reflexivity|].
  match goal with |- context [crc16_ccitt ?x] =>
    destruct (crc16_shape x) as (ca & cb & E); rewrite E end.
  unfold from_bytes; cbn -[be_int le_int header_unpack]. rewrite E.
  destruct (list_eq_dec Z.eq_dec [ca; cb] [ca; cb]) as [_|N];
    [|exfalso; apply N; reflexivity].
  unfold header_unpack; cbn -[be_int le_int].
  rewrite HU, HT, HL, be_int_be_bytes, !le_int_le_bytes.
  rewrite !Z.mod_small by (simpl; lia).
  reflexivity.
Qed.

(** ** Bit-level facts about the CRC step *)

Lemma testbit_high : forall x k n, 0 <= k -> 0 <= x < 2 ^ k -> k <= n ->
  Z.testbit x n = false.
Proof.
  intros x k n Hk Hx Hn.
  rewrite <- (Z.mod_small x (2 ^ k)) by lia.
  apply Z.mod_pow2_bits_high; lia.
Qed.

Lemma lt_pow2_of_bits : forall x k, 0 <= k -> 0 <= x ->
  (forall n, k <= n -> Z.testbit x n = false) -> x < 2 ^ k.
Proof.
  intros x k Hk Hx Hb.
  assert (E : x mod 2 ^ k = x).
  { apply Z.bits_inj'; intros n Hn.
    destruct (Z.lt_ge_cases n k).
    - apply Z.mod_pow2_bits_low; lia.
    - rewrite Z.mod_pow2_bits_high by lia; symmetry; apply Hb; lia. }
  rewrite <- E; apply Z.mod_pos_bound; apply Z.pow_pos_nonneg; lia.
Qed.

Lemma lxor_bound : forall a b k, 0 <= k ->
  0 <= a < 2 ^ k -> 0 <= b < 2 ^ k -> 0 <= Z.lxor a b < 2 ^ k.
Proof.
  intros a b k Hk Ha Hb.
  assert (0 <= Z.lxor a b) by (apply Z.lxor_nonneg; lia).
  split; auto. apply lt_pow2_of_bits; auto.
  intros n Hn; rewrite Z.lxor_spec.
  rewrite (testbit_high a k n), (testbit_high b k n); auto.
Qed.

Lemma lor_bound : forall a b k, 0 <= k ->
  0 <= a < 2 ^ k -> 0 <= b < 2 ^ k -> 0 <= Z.lor a b < 2 ^ k.
Proof.
  intros a b k Hk Ha Hb.
  assert (0 <= Z.lor a b) by (apply Z.lor_nonneg; lia).
  split; auto. apply lt_pow2_of_bits; auto.
  intros n Hn; rewrite Z.lor_spec.
  rewrite (testbit_high a k n), (testbit_high b k n); auto.
Qed.

Lemma land_lxor_distr : forall a b m,
  Z.land (Z.lxor a b) m = Z.lxor (Z.land a m) (Z.land b m).
Proof.
  intros; apply Z.bits_inj'; intros n _.
  rewrite Z.land_spec, !Z.lxor_spec, !Z.land_spec; btauto.
Qed.

Lemma lxor_swap4 : forall a b c d,
  Z.lxor (Z.lxor a b) (Z.lxor c d) = Z.lxor (Z.lxor a c) (Z.lxor b d).
Proof.
  intros; apply Z.bits_inj'; intros n _; rewrite !Z.lxor_spec; btauto.
Qed.

(** The CRC step is linear over [xor]. *)
Lemma crc16_update_x_linear : forall c1 c2 d1 d2,
  crc16_update_x (Z.lxor c1 c2) (Z.lxor d1 d2) =
  Z.lxor (crc16_update_x c1 d1) (crc16_update_x c2 d2).
Proof.
  intros. unfold crc16_update_x.
  rewrite (land_lxor_distr c1 c2 255), (lxor_swap4 d1 d2).
  remember (Z.lxor d1 (Z.land c1 255)) as a1.
  remember (Z.lxor d2 (Z.land c2 255)) as a2.
  rewrite (land_lxor_distr a1 a2 15), (Z.shiftl_lxor (Z.land a1 15)),
    (lxor_swap4 a1 a2).
  remember (Z.lxor a1 (Z.shiftl (Z.land a1 15) 4)) as b1.
  remember (Z.lxor a2 (Z.shiftl (Z.land a2 15) 4)) as b2.
  rewrite !Z.shiftl_lxor, !Z.shiftr_lxor.
  apply Z.bits_inj'; intros n Hn; rewrite !Z.lxor_spec.
  rewrite !Z.shiftl_spec, !Z.shiftr_spec by lia; btauto.
Qed.

Lemma crc16_update_as_x : forall c d, 0 <= c < 2 ^ 16 ->
  crc16_update c d = crc16_update_x c d.
Proof.
  intros c d Hc. unfold crc16_update, crc16_update_x; cbv zeta.
  rewrite <- Z.lxor_lor; [reflexivity|].
  apply Z.bits_inj'; intros n Hn; rewrite Z.land_spec, Z.bits_0.
  destruct (Z.lt_ge_cases n 8).
  - rewrite Z.shiftl_spec_low by lia; reflexivity.
  - rewrite Z.shiftr_spec by lia.
    rewrite (testbit_high c 16 (n + 8)) by lia. apply andb_false_r.
Qed.

Lemma crc16_update_range : forall c d, 0 <= c < 2 ^ 16 -> is_byte d ->
  0 <= crc16_update c d < 2 ^ 16.
Proof.
  intros c d Hc Hd. unfold is_byte in Hd. unfold crc16_update; cbv zeta.
  assert (Hlo : 0 <= Z.land c 255 < 2 ^ 8).
  { change 255 with (Z.ones 8); rewrite Z.land_ones by lia.
    apply Z.mod_pos_bound; lia. }
  assert (H1 : 0 <= Z.lxor d (Z.land c 255) < 2 ^ 8)
    by (apply lxor_bound; lia).
  remember (Z.lxor d (Z.land c 255)) as d1.
  assert (H2 : 0 <= Z.shiftl (Z.land d1 15) 4 < 2 ^ 8).
  { change 15 with (Z.ones 4); rewrite Z.land_ones by lia.
    rewrite Z.shiftl_mul_pow2 by lia.
    pose proof (Z.mod_pos_bound d1 (2 ^ 4)); simpl in *; lia. }
  assert (H3 : 0 <= Z.lxor d1 (Z.shiftl (Z.land d1 15) 4) < 2 ^ 8)
    by (apply lxor_bound; lia).
  remember (Z.lxor d1 (Z.shiftl (Z.land d1 15) 4)) as d2.
  rewrite Z.shiftr_div_pow2, !Z.shiftl_mul_pow2 by lia.
  apply lxor_bound; [lia| |simpl in *; lia].
  apply lxor_bound; [lia| |].
  - apply lor_bound; [lia|simpl in *; lia|].
    split; [apply Z.div_pos; lia|].
    apply Z.div_lt_upper_bound; simpl in *; lia.
  - rewrite Z.shiftr_div_pow2 by lia.
    split; [apply Z.div_pos; lia|].
    apply Z.div_lt_upper_bound; simpl in *; lia.
Qed.

Lemma all_below_spec : forall n p, all_below n p = true ->
  forall z, 0 <= z < Z.of_nat n -> p z = true.
Proof.
  induction n as [|n IH]; intros p H z Hz; [simpl in Hz; lia|].
  simpl in H; apply andb_prop in H as [H1 H2].
  destruct (Z.eq_dec z (Z.of_nat n)) as [->|Hne]; auto.
  apply IH; auto; lia.
Qed.

(** On a zero input byte the CRC step sends only the zero state to zero
    (checked on all 2^16 states). *)
Lemma crc16_update_x_zero_check :
  all_below 256 (fun hi => all_below 256 (fun lo =>
    negb (crc16_update_x (hi * 256 + lo) 0 =? 0) || (hi * 256 + lo =? 0)))
  = true.
Proof. vm_compute. reflexivity. Qed.

Lemma crc16_update_x_zero_inj : forall c, 0 <= c < 2 ^ 16 ->
  crc16_update_x c 0 = 0 -> c = 0.
Proof.
  intros c Hc H0. change (2 ^ 16) with 65536 in Hc.
  assert (Hhi : 0 <= c / 256 < Z.of_nat 256).
  { change (Z.of_nat 256) with 256.
    split; [apply Z.div_pos | apply Z.div_lt_upper_bound]; lia. }
  assert (Hlo : 0 <= c mod 256 < Z.of_nat 256)
    by (change (Z.of_nat 256) with 256; apply Z.mod_pos_bound; lia).
  pose proof (all_below_spec _ _ crc16_update_x_zero_check _ Hhi) as P.
  pose proof (all_below_spec _ _ P _ Hlo) as Q; cbv beta in Q.
  assert (E : c / 256 * 256 + c mod 256 = c)
    by (pose proof (Z.div_mod c 256 ltac:(lia)); lia).
  rewrite E, H0 in Q; simpl in Q. apply Z.eqb_eq; exact Q.
Qed.

Lemma lxor_pow2_neq : forall x k, 0 <= k -> Z.lxor x (2 ^ k) <> x.
Proof.
  intros x k Hk E.
  assert (Z.lxor x (Z.lxor x (2 ^ k)) = 0) by (rewrite E; apply Z.lxor_nilpotent).
  rewrite <- Z.lxor_assoc, Z.lxor_nilpotent, Z.lxor_0_l in H.
  pose proof (Z.pow_pos_nonneg 2 k); lia.
Qed.

Lemma lxor_cancel : forall a b, Z.lxor a b = a -> b = 0.
Proof.
  intros a b E.
  assert (Z.lxor a (Z.lxor a b) = 0) by (rewrite E; apply Z.lxor_nilpotent).
  rewrite <- Z.lxor_assoc, Z.lxor_nilpotent, Z.lxor_0_l in H; exact H.
Qed.

Lemma crc16_update_flip : forall c x k, 0 <= c < 2 ^ 16 -> 0 <= k < 8 ->
  crc16_update c (Z.lxor x (2 ^ k)) <> crc16_update c x.
Proof.
  intros c x k Hc Hk E.
  rewrite !crc16_update_as_x in E by exact Hc.
  rewrite <- (Z.lxor_0_r c) in E at 1.
  rewrite crc16_update_x_linear in E.
  apply lxor_cancel in E.
  assert (Hk' : k = 0 \/ k = 1 \/ k = 2 \/ k = 3 \/ k = 4 \/ k = 5 \/ k = 6 \/ k = 7)
    by lia.
  destruct Hk' as [->|[->|[->|[->|[->|[->|[->| ->]]]]]]];
    vm_compute in E; discriminate E.
Qed.

Lemma crc16_update_inj : forall c1 c2 d,
  0 <= c1 < 2 ^ 16 -> 0 <= c2 < 2 ^ 16 ->
  crc16_update c1 d = crc16_update c2 d -> c1 = c2.
Proof.
  intros c1 c2 d H1 H2 E.
  rewrite !crc16_update_as_x in E by assumption.
  assert (Z.lxor (crc16_update_x c1 d) (crc16_update_x c2 d) = 0)
    by (rewrite E; apply Z.lxor_nilpotent).
  rewrite <- crc16_update_x_linear, Z.lxor_nilpotent in H.
  apply crc16_update_x_zero_inj in H; [|apply lxor_bound; lia].
  apply Z.lxor_eq_0_iff; exact H.
Qed.

Lemma crc16_loop_range : forall l c, Forall is_byte l ->
  0 <= c < 2 ^ 16 -> 0 <= crc16_loop c l < 2 ^ 16.
Proof.
  induction l as [|x l IH]; intros c Hl Hc; simpl; auto.
  inversion Hl; subst. apply IH; auto. apply crc16_update_range; auto.
Qed.

Lemma crc16_loop_inj : forall l c1 c2, Forall is_byte l ->
  0 <= c1 < 2 ^ 16 -> 0 <= c2 < 2 ^ 16 -> c1 <> c2 ->
  crc16_loop c1 l <> crc16_loop c2 l.
Proof.
  induction l as [|x l IH]; intros c1 c2 Hl H1 H2 Hne; simpl; auto.
  inversion Hl; subst.
  apply IH; auto; try (apply crc16_update_range; auto).
  intros E; apply Hne; eapply crc16_update_inj; eauto.
Qed.

Lemma lxor_pow2_byte : forall x k, is_byte x -> 0 <= k < 8 ->
  is_byte (Z.lxor x (2 ^ k)).
Proof.
  unfold is_byte; intros x k Hx Hk.
  change 256 with (2 ^ 8); apply lxor_bound; try lia.
  split; [apply Z.pow_nonneg; lia|]. apply Z.pow_lt_mono_r; lia.
Qed.

Lemma Forall_flip : forall l i k, Forall is_byte l -> 0 <= k < 8 ->
  Forall is_byte (flip_bit l i k).
Proof.
  induction l as [|x l IH]; intros i k Hl Hk; [destruct i; constructor|].
  inversion Hl; subst.
  destruct i; simpl; constructor; auto. apply lxor_pow2_byte; auto.
Qed.

Lemma crc16_loop_flip : forall l i k c, Forall is_byte l ->
  (i < length l)%nat -> 0 <= k < 8 -> 0 <= c < 2 ^ 16 ->
  crc16_loop c (flip_bit l i k) <> crc16_loop c l.
Proof.
  induction l as [|x l IH]; intros i k c Hl Hi Hk Hc; simpl in Hi; [lia|].
  inversion Hl; subst.
  destruct i as [|i]; simpl.
  - apply crc16_loop_inj; auto.
    + apply crc16_update_range; auto. apply lxor_pow2_byte; auto.
    + apply crc16_update_range; auto.
    + apply crc16_update_flip; auto.
  - apply IH; auto; [lia|]. apply crc16_update_range; auto.
Qed.

Lemma crc16_ccitt_inj_state : forall a b, 0 <= a < 2 ^ 16 -> 0 <= b < 2 ^ 16 ->
  [Z.shiftr a 8; Z.land a 255] = [Z.shiftr b 8; Z.land b 255] -> a = b.
Proof.
  intros a b Ha Hb E; injection E as E1 E2.
  rewrite !Z.shiftr_div_pow2 in E1 by lia.
  change 255 with (Z.ones 8) in E2; rewrite !Z.land_ones in E2 by lia.
  change (2 ^ 8) with 256 in E1, E2.
  pose proof (Z.div_mod a 256 ltac:(lia)); pose proof (Z.div_mod b 256 ltac:(lia)).
  lia.
Qed.

(** A single-bit flip in a byte string changes its CRC. *)
Lemma crc16_ccitt_flip : forall l i k, Forall is_byte l ->
  (i < length l)%nat -> 0 <= k < 8 ->
  crc16_ccitt (flip_bit l i k) <> crc16_ccitt l.
Proof.
  intros l i k Hl Hi Hk E. unfold crc16_ccitt in E.
  apply crc16_ccitt_inj_state in E.
  - revert E; apply crc16_loop_flip; auto; lia.
  - apply crc16_loop_range; [apply Forall_flip; auto | lia].
  - apply crc16_loop_range; auto; lia.
Qed.

(** ** Single-bit flips of an encoded header *)

Lemma length_flip : forall l i k, length (flip_bit l i k) = length l.
Proof. induction l; intros [|i] k; simpl; auto. Qed.

Lemma firstn_flip_lt : forall l i k n, (i < n)%nat ->
  firstn n (flip_bit l i k) = flip_bit (firstn n l) i k.
Proof.
  induction l as [|x l IH]; intros i k n Hi; [destruct i, n; reflexivity|].
  destruct n as [|n]; [lia|]. destruct i as [|i]; simpl; auto.
  f_equal; apply IH; lia.
Qed.

Lemma firstn_flip_ge : forall l i k n, (n <= i)%nat ->
  firstn n (flip_bit l i k) = firstn n l.
Proof.
  induction l as [|x l IH]; intros i k n Hi; [destruct i, n; reflexivity|].
  destruct n as [|n]; [reflexivity|]. destruct i as [|i]; [lia|]; simpl.
  f_equal; apply IH; lia.
Qed.

Lemma skipn_flip_lt : forall l i k n, (i < n)%nat ->
  skipn n (flip_bit l i k) = skipn n l.
Proof.
  induction l as [|x l IH]; intros i k n Hi; [destruct i, n; reflexivity|].
  destruct n as [|n]; [lia|]. destruct i as [|i]; simpl; auto.
  apply IH; lia.
Qed.

Lemma skipn_flip_ge : forall l i k n, (n <= i)%nat ->
  skipn n (flip_bit l i k) = flip_bit (skipn n l) (i - n) k.
Proof.
  induction l as [|x l IH]; intros i k n Hi; [destruct i, n; reflexivity|].
  destruct n as [|n]; [rewrite Nat.sub_0_r; reflexivity|].
  destruct i as [|i]; [lia|]; simpl. apply IH; lia.
Qed.

Lemma nth_flip_same : forall l i k, (i < length l)%nat ->
  nth i (flip_bit l i k) 0 = Z.lxor (nth i l 0) (2 ^ k).
Proof.
  induction l as [|x l IH]; intros i k Hi; simpl in Hi; [lia|].
  destruct i; simpl; auto. apply IH; lia.
Qed.

Lemma nth_flip_other : forall l i j k, i <> j ->
  nth j (flip_bit l i k) 0 = nth j l 0.
Proof.
  induction l as [|x l IH]; intros i j k Hij; [destruct i; reflexivity|].
  destruct i, j; simpl; try lia; auto.
Qed.

Lemma flip_neq : forall l i k, (i < length l)%nat -> 0 <= k ->
  flip_bit l i k <> l.
Proof.
  intros l i k Hi Hk E.
  assert (nth i (flip_bit l i k) 0 = nth i l 0) by (rewrite E; reflexivity).
  rewrite nth_flip_same in H by exact Hi.
  exact (lxor_pow2_neq _ _ Hk H).
Qed.

Lemma Forall_firstn_is_byte : forall n l, Forall is_byte l ->
  Forall is_byte (firstn n l).
Proof.
  induction n; intros [|x l] H; simpl; auto. inversion H; subst; auto.
Qed.

(** C7: flipping any single bit of a 32-byte string that decodes makes
    [Header.from_bytes] fail, with the error of the region hit: the magic
    bytes give [InvalidMagic], the version byte [InvalidVersion], every other
    byte (the two checksum bytes included) [InvalidChecksum]. *)
Theorem from_bytes_single_bit_flip : forall b h i k,
  length b = HEADER_SIZE -> Forall is_byte b -> from_bytes b = Ok h ->
  (i < HEADER_SIZE)%nat -> 0 <= k < 8 ->
  ((i < 2)%nat -> from_bytes (flip_bit b i k) = Raise InvalidMagic) /\
  (i = 2%nat -> from_bytes (flip_bit b i k) = Raise InvalidVersion) /\
  ((2 < i)%nat -> from_bytes (flip_bit b i k) = Raise InvalidChecksum).
Proof.
  intros b h i k Hl Hb Hok Hi Hk. unfold HEADER_SIZE in *.
  assert (Hl' : length (flip_bit b i k) = HEADER_SIZE)
    by (rewrite length_flip; exact Hl).
  rewrite (from_bytes_32 b Hl) in Hok. rewrite (from_bytes_32 _ Hl').
  destruct (list_eq_dec Z.eq_dec (firstn 2 b) HEADER_MAGIC) as [Em|];
    [|discriminate Hok].
  destruct (Z.eqb_spec (nth 2 b 0) HEADER_VERSION) as [Ev|];
    [|discriminate Hok].
  destruct (list_eq_dec Z.eq_dec (crc16_ccitt (firstn 30 b)) (skipn 30 b))
    as [Ec|]; [|discriminate Hok].
  split; [|split]; intros Hr.
  - rewrite firstn_flip_lt by exact Hr.
    destruct (list_eq_dec Z.eq_dec (flip_bit (firstn 2 b) i k) HEADER_MAGIC)
      as [E|]; [|reflexivity].
    exfalso; rewrite <- Em in E; revert E; apply flip_neq; [|lia].
    rewrite length_firstn, Hl; simpl; lia.
  - subst i. rewrite firstn_flip_ge by lia.
    destruct (list_eq_dec Z.eq_dec (firstn 2 b) HEADER_MAGIC) as [_|];
      [|contradiction].
    rewrite nth_flip_same by (rewrite Hl; lia). rewrite Ev.
    destruct (Z.eqb_spec (Z.lxor HEADER_VERSION (2 ^ k)) HEADER_VERSION)
      as [E|]; [|reflexivity].
    exfalso; revert E; apply lxor_pow2_neq; lia.
  - rewrite firstn_flip_ge by lia.
    destruct (list_eq_dec Z.eq_dec (firstn 2 b) HEADER_MAGIC) as [_|];
      [|contradiction].
    rewrite nth_flip_other by lia. rewrite Ev; cbn [negb Z.eqb].
    destruct (Nat.lt_ge_cases i 30) as [Hi30|Hi30].
    + rewrite firstn_flip_lt, skipn_flip_lt by exact Hi30.
      destruct (list_eq_dec Z.eq_dec (crc16_ccitt (flip_bit (firstn 30 b) i k))
                  (skipn 30 b)) as [E|]; [|reflexivity].
      exfalso; rewrite <- Ec in E; revert E; apply crc16_ccitt_flip; auto.
      * apply Forall_firstn_is_byte; exact Hb.
      * rewrite length_firstn, Hl; simpl; lia.
    + rewrite firstn_flip_ge, skipn_flip_ge by exact Hi30.
      destruct (list_eq_dec Z.eq_dec (crc16_ccitt (firstn 30 b))
                  (flip_bit (skipn 30 b) (i - 30) k)) as [E|]; [|reflexivity].
      exfalso; rewrite Ec in E; symmetry in E; revert E; apply flip_neq; [|lia].
      rewrite length_skipn, Hl; lia.
Qed.

(** C1 (as the code has it): when the header decodes, announces a payload
    ([data_length > 0]) and the unchanged-header shortcut does not apply,
    [_attached] reads [data_length] bytes at the payload address, decodes
    them and adopts the result as both the current and the last-persisted
    record.  The payload is never compared with [data_checksum]: the
    statement holds whatever [crc16_ccitt data] is. *)
Theorem attached_adopts_payload_unchecked :
  forall (D : Type) dev_read dev_write dumps loads u t0 t1 name
         (w : World D) hd h data c,
  dev_read (w_dev w) 0 32 = Some hd -> from_bytes hd = Ok h ->
  0 < data_length h ->
  header_opt_eqb (Some h) (last_header (w_st w))
    && config_truthy (last_config (w_st w)) = false ->
  dev_read (w_dev w) (get_data_address h) (data_length h) = Some data ->
  loads data = Some c ->
  let w' := snd (attached dev_read dev_write dumps loads u t0 t1 name w) in
  fst (attached dev_read dev_write dumps loads u t0 t1 name w) = Ok tt /\
  connected (w_st w') = true /\ header (w_st w') = Some h /\
  config (w_st w') = Some c /\ last_config (w_st w') = Some c.
Proof.
  intros D dev_read dev_write dumps loads u t0 t1 name w hd h data c
    Hr Hd Hlen Hsc Hp Hl.
  unfold attached, attach_finish; unfold_monad;
  cbn -[header_opt_eqb config_truthy from_bytes get_data_address].
  rewrite Hr; cbn -[header_opt_eqb config_truthy from_bytes get_data_address].
  rewrite Hd; cbn -[header_opt_eqb config_truthy get_data_address].
  rewrite (proj2 (Z.ltb_lt 0 (data_length h)) Hlen);
  cbn -[header_opt_eqb config_truthy get_data_address].
  rewrite Hsc; cbn [w_dev w_st w_trace]. rewrite Hp; cbn. rewrite Hl; cbn.
  repeat split; reflexivity.
Qed.

(** ** Encoding the header: where the header checksum comes from *)

Lemma length_pack_s : forall n b, length (pack_s n b) = n.
Proof.
  intros n b; unfold pack_s; rewrite length_app, repeat_length, length_firstn.
  lia.
Qed.

Lemma pack_uint_length : forall n v b, pack_uint n v = Some b -> length b = n.
Proof.
  intros n v b H; unfold pack_uint in H.
  destruct (_ && _); inversion H; apply length_le_bytes.
Qed.

Lemma header_pack_shape : forall h hc dat, header_pack h hc = Some dat ->
  exists pre, dat = pre ++ pack_s 2 hc /\ length pre = 30%nat.
Proof.
  intros h hc dat H; unfold header_pack in H.
  destruct (pack_uint 1 (version h)) as [vb|] eqn:E1; [|discriminate].
  destruct (pack_uint 4 (timestamp h)) as [tb|] eqn:E2; [|discriminate].
  destruct (pack_uint 1 (data_page h)) as [pb|] eqn:E3; [|discriminate].
  destruct (pack_uint 2 (data_length h)) as [lb|] eqn:E4; [|discriminate].
  inversion H; subst; clear H.
  apply pack_uint_length in E1, E2, E3, E4.
  exists (pack_s 2 (magic h) ++ vb ++ pack_s 16 (be_bytes 16 (uid h))
          ++ [0; 0] ++ tb ++ pb ++ lb ++ pack_s 2 (data_checksum h)); split.
  - rewrite <- !app_assoc; reflexivity.
  - rewrite !length_app, !length_pack_s, E1, E2, E3, E4; reflexivity.
Qed.

Lemma firstn_app_exact : forall (p q : list Z) n, length p = n ->
  firstn n (p ++ q) = p.
Proof.
  intros p q n <-; rewrite firstn_app, firstn_all, Nat.sub_diag; simpl.
  apply app_nil_r.
Qed.

Lemma skipn_app_exact : forall (p q : list Z) n, length p = n ->
  skipn n (p ++ q) = q.
Proof.
  intros p q n <-; rewrite skipn_app, skipn_all, Nat.sub_diag; reflexivity.
Qed.

(** C5 (as the code has it): [to_bytes] packs the 32-byte buffer with the
    placeholder [NULL_CRC16] in the header-checksum field, then keeps its
    first 30 bytes and appends their CRC: the stored checksum is the CRC of
    the 30 bytes before the field (the placeholder is packed but not part of
    the checksummed range), which is what [from_bytes] verifies. *)
Theorem to_bytes_header_checksum : forall h b, to_bytes h = Some b ->
  exists dat,
    header_pack h NULL_CRC16 = Some dat /\ length dat = 32%nat /\
    skipn 30 dat = NULL_CRC16 /\ firstn 30 b = firstn 30 dat /\
    length b = 32%nat /\ skipn 30 b = crc16_ccitt (firstn 30 dat) /\
    crc16_ccitt (py_drop_last2 b) = py_last2 b.
Proof.
  intros h b H; unfold to_bytes in H.
  destruct (header_pack h NULL_CRC16) as [dat|] eqn:E; [|discriminate].
  inversion H; subst; clear H.
  destruct (header_pack_shape _ _ _ E) as (pre & -> & Hpre).
  exists (pre ++ pack_s 2 NULL_CRC16).
  assert (Hd : py_drop_last2 (pre ++ pack_s 2 NULL_CRC16) = pre).
  { unfold py_drop_last2; rewrite length_app, length_pack_s, Hpre.
    apply firstn_app_exact; exact Hpre. }
  assert (Hc : length (crc16_ccitt pre) = 2%nat)
    by (destruct (crc16_shape pre) as (x & y & ->); reflexivity).
  rewrite Hd. rewrite !firstn_app_exact, !skipn_app_exact by exact Hpre.
  repeat split; try reflexivity.
  - rewrite length_app, length_pack_s, Hpre; reflexivity.
  - rewrite length_app, Hc, Hpre; reflexivity.
  - unfold py_drop_last2, py_last2.
    rewrite length_app, Hc, Hpre; cbn [Nat.sub].
    rewrite firstn_app_exact, skipn_app_exact by exact Hpre; reflexivity.
Qed.

(** ** Concrete runs *)

Ltac vm_refl := vm_compute; reflexivity.

(** C1 fails: the device holds a valid header announcing the 9-byte payload
    [payload_T0] with [data_checksum = [0; 0]], which is not the CRC of those
    bytes; [_attached] still succeeds and adopts the decoded payload as the
    current record. *)
Lemma attached_adopts_corrupt_payload :
  from_bytes (firstn 32 device_bad_dcrc) = Ok header_bad_dcrc /\
  0 < data_length header_bad_dcrc /\
  firstn 9 (skipn 256 device_bad_dcrc) = payload_T0 /\
  crc16_ccitt payload_T0 <> data_checksum header_bad_dcrc /\
  fst (attached ldev_read ldev_write mp_dumps mp_loads 1 2 3 "x"
         (world0 device_bad_dcrc)) = Ok tt /\
  config (w_st (snd (attached ldev_read ldev_write mp_dumps mp_loads 1 2 3 "x"
         (world0 device_bad_dcrc)))) = Some [("name"%string, VStr "T0")].
Proof.
  repeat split; try vm_refl.
  intro E; vm_compute in E; discriminate E.
Qed.

Lemma attached_adopts_payload_unchecked_witness :
  let w' := snd (attached ldev_read ldev_write mp_dumps mp_loads 1 2 3 "x"
                   (world0 device_bad_dcrc)) in
  fst (attached ldev_read ldev_write mp_dumps mp_loads 1 2 3 "x"
         (world0 device_bad_dcrc)) = Ok tt /\
  connected (w_st w') = true /\ header (w_st w') = Some header_bad_dcrc /\
  config (w_st w') = Some [("name"%string, VStr "T0")] /\
  last_config (w_st w') = Some [("name"%string, VStr "T0")].
Proof.
  apply (attached_adopts_payload_unchecked (list Z) ldev_read ldev_write
           mp_dumps mp_loads 1 2 3 "x" (world0 device_bad_dcrc)
           (firstn 32 device_bad_dcrc) header_bad_dcrc payload_T0
           [("name"%string, VStr "T0")]); vm_refl.
Defined.

Lemma header_roundtrip_witness :
  produced (update (Header_new 7 100) payload_T0 101) /\
  exists b, to_bytes (update (Header_new 7 100) payload_T0 101) = Some b /\
    from_bytes b = Ok (update (Header_new 7 100) payload_T0 101).
Proof.
  assert (P : produced (update (Header_new 7 100) payload_T0 101)).
  { apply produced_update; [apply produced_new|..];
      repeat split; vm_compute; congruence. }
  split; [exact P | apply header_roundtrip; exact P].
Defined.

Lemma save_payload_before_header_witness :
  let p := save ldev_write mp_dumps 101 connected_world in
  p = (fst p, snd p) /\ fst p = Ok tt /\
  exists tr, w_trace (snd p) = w_trace connected_world ++ tr.
Proof.
  cbv zeta; split; [vm_refl | split; [vm_refl |]].
  destruct (save_payload_before_header (list Z) ldev_write mp_dumps 101
              connected_world
              (snd (save ldev_write mp_dumps 101 connected_world))
              (fst (save ldev_write mp_dumps 101 connected_world)))
    as [tr [H _]]; [vm_refl | exists tr; exact H].
Defined.

(** C4 fails on its "zero data checksum": on a blank device the header that
    [_attached] synthesizes, kept as [_last_header], has data length 0 but
    data checksum [NULL_CRC16 = [255; 255]] (the CRC of no bytes), not
    zero. *)
Lemma attached_init_checksum_not_zero :
  from_bytes (firstn 32 device_blank) = Raise InvalidMagic /\
  last_header (w_st (snd (attached ldev_read ldev_write mp_dumps mp_loads
                            7 100 101 "T0" (world0 device_blank)))) =
    Some (Header_new 7 100) /\
  data_length (Header_new 7 100) = 0 /\
  data_checksum (Header_new 7 100) <> [0; 0].
Proof.
  repeat split; try vm_refl.
  intro E; vm_compute in E; discriminate E.
Qed.

Lemma attached_header_error_initializes_witness :
  attached ldev_read ldev_write mp_dumps mp_loads 7 100 101 "T0"
    (world0 device_blank) =
  (save ldev_write mp_dumps 101 ;;; attach_finish)
    {| w_dev := device_blank; w_st := init_branch_state 7 100 "T0" init_state;
       w_trace := [EvRead 0 32] |}.
Proof.
  refine (proj1 (attached_header_error_initializes (list Z) ldev_read
            ldev_write mp_dumps mp_loads 7 100 101 "T0" (world0 device_blank)
            (repeat 255 32) InvalidMagic _ _ _)); vm_refl.
Defined.

(** C5 fails: the CRC over the whole packed buffer, placeholder included,
    is not what [to_bytes] stores (shown on a fresh header). *)
Lemma to_bytes_checksum_not_over_placeholder :
  match to_bytes (Header_new 7 100), header_pack (Header_new 7 100) NULL_CRC16
  with
  | Some b, Some dat => skipn 30 b <> crc16_ccitt dat
  | _, _ => False
  end.
Proof.
  vm_compute; intro E; discriminate E.
Qed.

Lemma to_bytes_header_checksum_witness :
  to_bytes (Header_new 7 100) = Some header_T0_bytes /\
  skipn 30 header_T0_bytes = crc16_ccitt (firstn 30 header_T0_bytes).
Proof.
  assert (E : to_bytes (Header_new 7 100) = Some header_T0_bytes) by vm_refl.
  split; [exact E|].
  destruct (to_bytes_header_checksum _ _ E)
    as (dat & _ & _ & _ & F & _ & S & _).
  rewrite F; exact S.
Defined.

Lemma Forall_is_byte_check : forall b,
  forallb (fun x => (0 <=? x) && (x <? 256)) b = true -> Forall is_byte b.
Proof.
  intros b H; apply Forall_forall; intros x Hx.
  apply (proj1 (forallb_forall _ b) H) in Hx.
  apply andb_prop in Hx as [A B]; unfold is_byte; lia.
Qed.

Lemma from_bytes_check_order_witness :
  length header_T0_bytes = HEADER_SIZE /\
  exists h, from_bytes header_T0_bytes = Ok h.
Proof.
  assert (L : length header_T0_bytes = HEADER_SIZE) by vm_refl.
  split; [exact L|].
  refine (proj2 (proj2 (proj2 (from_bytes_check_order header_T0_bytes L)))
            _ _ _); vm_refl.
Defined.

Lemma from_bytes_single_bit_flip_witness :
  from_bytes header_T0_bytes = Ok (Header_new 7 100) /\
  from_bytes (flip_bit header_T0_bytes 5 3) = Raise InvalidChecksum.
Proof.
  split; [vm_refl|].
  refine (proj2 (proj2 (from_bytes_single_bit_flip header_T0_bytes
            (Header_new 7 100) 5 3 _ _ _ _ _)) _);
    try vm_refl; try lia.
  - apply Forall_is_byte_check; vm_refl.
  - unfold HEADER_SIZE; lia.
Defined.

Lemma facade_not_connected_and_get_missing_witness :
  has "name" (world0 device_blank) =
    (Raise MemoryNotConnected, world0 device_blank) /\
  get "y" (Some (VInt 1)) connected_world = (Ok (VInt 1), connected_world).
Proof.
  split.
  - refine (proj1 (proj1 (facade_not_connected_and_get_missing (list Z)
              (world0 device_blank) "name" [] VNil VNil) _)); reflexivity.
  - refine (proj2 (proj2 (facade_not_connected_and_get_missing (list Z)
              connected_world "y" [("name"%string, VStr "T0")] (VInt 1) VNil)
              _ _ _)); reflexivity.
Defined.

Lemma delete_missing_noop_witness :
  delete "y" connected_world = (Ok tt, connected_world).
Proof.
  apply (delete_missing_noop (list Z) connected_world "y"
           [("name"%string, VStr "T0")]); reflexivity.
Defined.

(* ================================================================== *)
(** * Further properties of the controller and its callers *)

(** Case analysis on every [match] of a goal, evaluating as it goes. *)
Ltac case_matches :=
  repeat (cbn in *;
          match goal with
          | |- context [match ?x with _ => _ end] =>
              lazymatch type of x with
              | prod _ _ => fail
              | _ => let E := fresh "E" in destruct x eqn:E
              end
          end).

Ltac simpl_world :=
  cbn [w_dev w_st w_trace fst snd connected header config last_header
       last_config timer_armed set_connected set_header set_config
       set_last_header set_last_config set_timer] in *.

(** [case_matches], leaving [save] folded. *)
Ltac case_matches_ns :=
  repeat (cbn -[save] in *;
          match goal with
          | |- context [match ?x with _ => _ end] =>
              lazymatch type of x with
              | prod _ _ => fail
              | _ => let E := fresh "E" in destruct x eqn:E
              end
          end).

(** [save] touches only the header, the last-persisted snapshot, the device
    and the trace. *)
Lemma save_frame : forall D dev_write dumps now (w : World D),
  let s' := w_st (snd (save dev_write dumps now w)) in
  connected s' = connected (w_st w) /\ config s' = config (w_st w) /\
  last_header s' = last_header (w_st w) /\
  timer_armed s' = timer_armed (w_st w).
Proof.
  intros; subst s'; unfold save; unfold_monad; case_matches; auto.
Qed.

(** The invariant: [_last_header] is [None] or a header with no payload. *)
Definition last_header_fresh (s : CState) : Prop :=
  forall h, last_header s = Some h -> data_length h = 0.

Lemma save_last_header : forall D dev_write dumps now (w : World D) r w',
  save dev_write dumps now w = (r, w') -> last_header (w_st w') = last_header (w_st w).
Proof.
  intros D dev_write dumps now w r w' E.
  pose proof (save_frame D dev_write dumps now w) as F; cbn zeta in F.
  rewrite E in F; apply F.
Qed.

Lemma attached_fresh : forall D dev_read dev_write dumps loads u t0 t1 name
  (w : World D), last_header_fresh (w_st w) ->
  last_header_fresh (w_st (snd (attached dev_read dev_write dumps loads
                                  u t0 t1 name w))).
Proof.
  intros D dev_read dev_write dumps loads u t0 t1 name w H.
  unfold attached, attach_finish; unfold_monad; case_matches_ns; simpl_world;
    try exact H.
  all: try (destruct (save dev_write dumps t1 _) as [r w'] eqn:ES;
            apply save_last_header in ES; destruct r; simpl_world).
  all: unfold last_header_fresh in *; simpl_world; try rewrite ES;
    simpl_world; intros hh Hh; try (injection Hh as <-; reflexivity); auto.
Qed.

Lemma run_op_fresh : forall D dev_read dev_write dumps loads o (w : World D),
  last_header_fresh (w_st w) ->
  last_header_fresh (w_st (snd (run_op dev_read dev_write dumps loads o w))).
Proof.
  intros D dev_read dev_write dumps loads o w H.
  destruct o; cbn -[attached save has get set setdefault delete autosave].
  - apply attached_fresh; exact H.
  - unfold on_detach, st_update, modify; exact H.
  - unfold autosave, has_changes; unfold_monad; cbn -[save].
    destruct (negb _); [|exact H].
    destruct (save dev_write dumps now _) as [[]] eqn:ES;
      apply save_last_header in ES; unfold last_header_fresh in *;
      simpl_world; rewrite ES; exact H.
  - destruct (save dev_write dumps now w) as [r w'] eqn:ES;
      apply save_last_header in ES; unfold last_header_fresh in *;
      simpl_world; rewrite ES; exact H.
  - unfold has, require_config; unfold_monad; case_matches; exact H.
  - unfold get, require_config; unfold_monad; case_matches; exact H.
  - unfold set, require_config; unfold_monad; case_matches; exact H.
  - unfold setdefault, require_config; unfold_monad; case_matches; exact H.
  - unfold delete, require_config; unfold_monad; case_matches; exact H.
  - exact H.
Qed.

Lemma run_ops_fresh : forall D dev_read dev_write dumps loads os (w : World D),
  last_header_fresh (w_st w) ->
  last_header_fresh (w_st (run_ops dev_read dev_write dumps loads os w)).
Proof.
  intros D dev_read dev_write dumps loads os; induction os as [|o os IH];
    intros w H; [exact H|].
  cbn [run_ops]; apply IH, run_op_fresh, H.
Qed.

Lemma header_eqb_length : forall a b, header_eqb a b = true ->
  data_length a = data_length b.
Proof.
  intros a b E; unfold header_eqb in E.
  repeat rewrite andb_true_iff in E.
  destruct E as [[[[[[_ _] _] _] _] L] _]; apply Z.eqb_eq, L.
Qed.

(** [_attached] skips reading the payload ("config unchanged from last
    attachment") only when the decoded header equals [_last_header]; but
    [_last_header] is only ever set to a fresh [Header()], whose data length
    is 0.  So in every run of the controller from its initial state (any
    attaches, detaches, saves, autosaves, facade calls and device swaps),
    an attach that decodes a header announcing a payload reads that payload
    from the device right after the header. *)
Theorem attach_always_reads_payload :
  forall D dev_read dev_write dumps loads os (d : D) u t0 t1 name hd h,
  let w := run_ops dev_read dev_write dumps loads os
             {| w_dev := d; w_st := init_state; w_trace := [] |} in
  dev_read (w_dev w) 0 32 = Some hd -> from_bytes hd = Ok h ->
  0 < data_length h ->
  exists rest,
    w_trace (snd (attached dev_read dev_write dumps loads u t0 t1 name w)) =
    w_trace w ++ EvRead 0 32 :: EvRead (get_data_address h) (data_length h)
              :: rest.
Proof.
  intros D dev_read dev_write dumps loads os d u t0 t1 name hd h w Hr Hd Hl.
  assert (Hf : last_header_fresh (w_st w))
    by (apply run_ops_fresh; intros x Hx; discriminate Hx).
  assert (Hs : header_opt_eqb (Some h) (last_header (w_st w)) = false).
  { unfold header_opt_eqb.
    destruct (last_header (w_st w)) as [lh|] eqn:El; [|reflexivity].
    destruct (header_eqb h lh) eqn:Eq; [|reflexivity].
    apply header_eqb_length in Eq; rewrite (Hf lh El) in Eq; lia. }
  clearbody w.
  unfold attached, attach_finish; unfold_monad;
    cbn -[header_opt_eqb config_truthy from_bytes get_data_address].
  rewrite Hr; cbn -[header_opt_eqb config_truthy from_bytes get_data_address].
  rewrite Hd; cbn -[header_opt_eqb config_truthy get_data_address].
  rewrite (proj2 (Z.ltb_lt 0 (data_length h)) Hl);
    cbn -[header_opt_eqb config_truthy get_data_address].
  rewrite Hs; cbn [andb w_dev w_st w_trace].
  destruct (dev_read (w_dev w) (get_data_address h) (data_length h));
    cbn; [destruct (loads l)|]; cbn; rewrite <- !app_assoc; eexists; reflexivity.
Qed.

Lemma attach_always_reads_payload_witness :
  exists rest,
    w_trace (snd (attached ldev_read ldev_write mp_dumps mp_loads 8 200 201
                    "T1" world_after_init)) =
    w_trace world_after_init ++
      EvRead 0 32 :: EvRead (get_data_address header_after_init)
                              (data_length header_after_init) :: rest.
Proof.
  apply (attach_always_reads_payload (list Z) ldev_read ldev_write mp_dumps
           mp_loads [OpAttach 7 100 101 "T0"] device_blank 8 200 201 "T1"
           (firstn 32 (w_dev world_after_init)) header_after_init); vm_refl.
Defined.

(** ** The header codec on well-formed headers *)

Lemma wf_roundtrip : forall h, header_wf h ->
  exists b, to_bytes h = Some b /\ from_bytes b = Ok h /\ length b = 32%nat.
Proof.
  intros h (Hm & Hv & Hu & Ht & Hpg & Hl & Hc).
  destruct h as [m v u t p l c];
    cbn [magic version uid timestamp data_page data_length data_checksum] in *;
    subst m v.
  unfold to_bytes, header_pack.
  cbn [magic version uid timestamp data_page data_length data_checksum].
  rewrite (pack_uint_ok 4 t Ht), (pack_uint_ok 2 l Hl),
    (pack_uint_ok 1 p Hpg).
  change (pack_uint 1 HEADER_VERSION) with (Some [1]).
  rewrite (pack_s_exact 16 (be_bytes 16 u)) by apply length_be_bytes.
  rewrite (pack_s_exact 2 c) by exact Hc.
  pose proof (length_be_bytes 16 u) as LU.
  pose proof (length_le_bytes 4 t) as LT.
  pose proof (length_le_bytes 2 l) as LL.
  pose proof (length_le_bytes 1 p) as LP.
  remember (be_bytes 16 u) as U eqn:HU.
  remember (le_bytes 4 t) as T eqn:HT.
  remember (le_bytes 2 l) as L eqn:HL.
  remember (le_bytes 1 p) as P eqn:HP.
  explode LU. explode LT. explode LL. explode LP. explode Hc.
  cbn.
  eexists; split; [reflexivity|].
  match goal with |- context [crc16_ccitt ?x] =>
    destruct (crc16_shape x) as (ca & cb & E); rewrite E end.
  split; [|reflexivity].
  unfold from_bytes; cbn -[be_int le_int header_unpack]. rewrite E.
  destruct (list_eq_dec Z.eq_dec [ca; cb] [ca; cb]) as [_|N];
    [|exfalso; apply N; reflexivity].
  unfold header_unpack; cbn -[be_int le_int].
  replace x21 with (le_int [x21]) by (cbn; lia).
  rewrite HP.
  rewrite HU, HT, HL, be_int_be_bytes, !le_int_le_bytes.
  rewrite !Z.mod_small by (simpl; lia).
  reflexivity.
Qed.

Lemma pack_uint_range : forall n v b, pack_uint n v = Some b ->
  0 <= v < 2 ^ (8 * Z.of_nat n).
Proof.
  intros n v b H; unfold pack_uint in H.
  destruct (0 <=? v) eqn:E1; [|discriminate].
  destruct (v <? 2 ^ (8 * Z.of_nat n)) eqn:E2; [|discriminate].
  apply Z.leb_le in E1; apply Z.ltb_lt in E2; lia.
Qed.

(** A header [to_bytes] encodes has its clock, page and length fields in
    range; with constant magic, version and a 128-bit identifier it is
    well-formed. *)
Lemma to_bytes_wf : forall h hb, header_ok h -> to_bytes h = Some hb ->
  length (data_checksum h) = 2%nat -> header_wf h.
Proof.
  intros h hb (Hm & Hv & Hu) H Hc; unfold to_bytes, header_pack in H.
  destruct (pack_uint 1 (version h)) eqn:E1; [|discriminate].
  destruct (pack_uint 4 (timestamp h)) eqn:E2; [|discriminate].
  destruct (pack_uint 1 (data_page h)) eqn:E3; [|discriminate].
  destruct (pack_uint 2 (data_length h)) eqn:E4; [|discriminate].
  apply pack_uint_range in E2, E3, E4.
  unfold header_wf; repeat split; auto; simpl in *; lia.
Qed.

Lemma save_ok_inv : forall D dev_write dumps now (w w1 : World D),
  save dev_write dumps now w = (Ok tt, w1) ->
  exists p h hb d1,
    dumps (config_value (config (w_st w))) = Some p /\
    header (w_st w) = Some h /\
    to_bytes (update h p now) = Some hb /\
    dev_write (w_dev w) (get_data_address (update h p now)) p = Some d1 /\
    dev_write d1 0 hb = Some (w_dev w1) /\
    w_st w1 = set_last_config (config (w_st w))
                (set_header (Some (update h p now)) (w_st w)).
Proof.
  intros D dev_write dumps now w w1 H.
  unfold save in H; unfold_monad; cbn -[get_data_address update to_bytes] in H.
  destruct (dumps (config_value (config (w_st w)))) as [p|] eqn:E1;
    [|discriminate H].
  destruct (header (w_st w)) as [h|] eqn:E2; [|discriminate H].
  cbn -[get_data_address update to_bytes] in H.
  destruct (dev_write (w_dev w) (get_data_address (update h p now)) p)
    as [d1|] eqn:E3; [|discriminate H].
  cbn -[get_data_address update to_bytes] in H.
  destruct (to_bytes (update h p now)) as [hb|] eqn:E4; [|discriminate H].
  cbn -[get_data_address update to_bytes] in H.
  destruct (dev_write d1 0 hb) as [d2|] eqn:E5; [|discriminate H].
  injection H as <-; simpl_world.
  exists p, h, hb, d1; auto 7.
Qed.

(** ** The list device: reads see earlier writes *)

Lemma ldev_write_inv : forall m a b m', ldev_write m a b = Some m' ->
  0 <= a /\ a + Z.of_nat (length b) <= Z.of_nat (length m) /\
  m' = firstn (Z.to_nat a) m ++ b ++ skipn (Z.to_nat a + length b) m.
Proof.
  intros m a b m' H; unfold ldev_write in H.
  destruct (0 <=? a) eqn:E1; [|discriminate].
  destruct (a + Z.of_nat (length b) <=? Z.of_nat (length m)) eqn:E2;
    [|discriminate].
  injection H as <-; apply Z.leb_le in E1, E2; auto.
Qed.

Lemma ldev_write_length : forall m a b m', ldev_write m a b = Some m' ->
  length m' = length m.
Proof.
  intros m a b m' H; apply ldev_write_inv in H as (H1 & H2 & ->).
  rewrite !length_app, length_firstn, length_skipn; lia.
Qed.

Lemma ldev_read_write_same : forall m a b m', ldev_write m a b = Some m' ->
  ldev_read m' a (Z.of_nat (length b)) = Some b.
Proof.
  intros m a b m' H.
  pose proof (ldev_write_length _ _ _ _ H) as L.
  apply ldev_write_inv in H as (H1 & H2 & E).
  unfold ldev_read; rewrite L.
  rewrite (proj2 (Z.leb_le 0 a) H1), (proj2 (Z.leb_le 0 _) (Nat2Z.is_nonneg _)),
    (proj2 (Z.leb_le _ _) H2); cbn [andb]; subst m'.
  rewrite Nat2Z.id, skipn_app, skipn_all2 by (rewrite length_firstn; lia).
  rewrite length_firstn, Nat.min_l by lia.
  rewrite Nat.sub_diag; cbn [skipn app].
  rewrite firstn_app, Nat.sub_diag, firstn_all; cbn [firstn].
  rewrite app_nil_r; reflexivity.
Qed.

Lemma ldev_read_write_other : forall m a b m' a' n,
  ldev_write m a b = Some m' ->
  a' + n <= a \/ a + Z.of_nat (length b) <= a' ->
  ldev_read m' a' n = ldev_read m a' n.
Proof.
  intros m a b m' a' n H D.
  pose proof (ldev_write_length _ _ _ _ H) as L.
  apply ldev_write_inv in H as (H1 & H2 & E).
  unfold ldev_read; rewrite L.
  destruct ((0 <=? a') && (0 <=? n) && (a' + n <=? Z.of_nat (length m))) eqn:G;
    [|reflexivity].
  apply andb_true_iff in G as [G G3]; apply andb_true_iff in G as [G1 G2].
  apply Z.leb_le in G1, G2, G3. f_equal; subst m'.
  destruct D as [D|D].
  - rewrite !firstn_skipn_comm. f_equal.
    rewrite firstn_app, length_firstn, Nat.min_l by lia.
    replace (Z.to_nat a' + Z.to_nat n - Z.to_nat a)%nat with O by lia.
    rewrite firstn_O, app_nil_r, firstn_firstn, Nat.min_l by lia.
    reflexivity.
  - rewrite app_assoc, skipn_app, skipn_all2
      by (rewrite length_app, length_firstn; lia).
    rewrite length_app, length_firstn, Nat.min_l by lia.
    rewrite skipn_skipn; cbn [app].
    replace (Z.to_nat a' - (Z.to_nat a + length b) + (Z.to_nat a + length b))%nat
      with (Z.to_nat a') by lia.
    reflexivity.
Qed.

(** ** Saving, then attaching again *)

Section Persistence.

Variable D : Type.
Variable dev_read : D -> Z -> Z -> option (list Z).
Variable dev_write : D -> Z -> list Z -> option D.
Variable dumps : Value -> option (list Z).
Variable loads : list Z -> option Config.

(** The device returns what was written, and a write leaves the bytes
    outside its range as they were. *)
Hypothesis read_own_write : forall m a b m', dev_write m a b = Some m' ->
  dev_read m' a (Z.of_nat (length b)) = Some b.
Hypothesis read_other_write : forall m a b m' a' n,
  dev_write m a b = Some m' ->
  a' + n <= a \/ a + Z.of_nat (length b) <= a' ->
  dev_read m' a' n = dev_read m a' n.

(** After a successful [save] of a record [c] (whose header has the
    constant magic and version and a 128-bit identifier), attaching the
    device again, from any controller state reached by a run (where
    [_last_header] holds no payload), succeeds and restores [c] as both
    the current record and the last-persisted snapshot, with the header
    [save] wrote.  The codec is assumed to read back what it writes for
    [c], as a non-empty payload. *)
Theorem save_then_attach_restores :
  forall (w w1 : World D) h c now s0 tr u t0 t1 name,
  header (w_st w) = Some h -> header_ok h -> config (w_st w) = Some c ->
  (forall p, dumps (VMap c) = Some p -> p <> [] /\ loads p = Some c) ->
  save dev_write dumps now w = (Ok tt, w1) ->
  last_header_fresh s0 ->
  let r := attached dev_read dev_write dumps loads u t0 t1 name
             {| w_dev := w_dev w1; w_st := s0; w_trace := tr |} in
  fst r = Ok tt /\ connected (w_st (snd r)) = true /\
  header (w_st (snd r)) = header (w_st w1) /\
  config (w_st (snd r)) = Some c /\ last_config (w_st (snd r)) = Some c.
Proof.
  intros w w1 h c now s0 tr u t0 t1 name Hh Hok Hc Hmp Hs Hf r.
  destruct (save_ok_inv _ _ _ _ _ _ Hs)
    as (p & h' & hb & d1 & Ep & Eh & Eb & W1 & W2 & Est).
  rewrite Hh in Eh; injection Eh as <-.
  rewrite Hc in Ep; cbn [config_value] in Ep.
  destruct (Hmp p Ep) as [Hne Hl].
  assert (Hwf : header_wf (update h p now)).
  { apply (to_bytes_wf _ hb); [exact Hok | exact Eb |].
    cbn [update data_checksum].
    destruct (crc16_shape p) as (x & y & ->); reflexivity. }
  destruct (wf_roundtrip _ Hwf) as (b & Eb' & Hdec & Hlen).
  rewrite Eb in Eb'; injection Eb' as <-.
  assert (R0 : dev_read (w_dev w1) 0 32 = Some hb).
  { rewrite <- (read_own_write _ _ _ _ W2), Hlen; reflexivity. }
  assert (Hpos : 0 < data_length (update h p now)).
  { cbn [update data_length]; destruct p; [congruence | cbn [length]; lia]. }
  assert (R1 : dev_read (w_dev w1) (get_data_address (update h p now))
                 (data_length (update h p now)) = Some p).
  { rewrite (read_other_write _ _ _ _ _ _ W2).
    - apply (read_own_write _ _ _ _ W1).
    - right; rewrite Hlen; destruct Hwf as (_ & _ & _ & _ & Hpg & _).
      unfold get_data_address; lia. }
  assert (Hsc : header_opt_eqb (Some (update h p now)) (last_header s0)
                  && config_truthy (last_config s0) = false).
  { unfold header_opt_eqb.
    destruct (last_header s0) as [lh|] eqn:El; [|reflexivity].
    destruct (header_eqb (update h p now) lh) eqn:Eq; [|reflexivity].
    apply header_eqb_length in Eq; rewrite (Hf lh El) in Eq; lia. }
  subst r; rewrite Est; cbn [w_st header set_last_config set_header].
  unfold attached, attach_finish; unfold_monad;
    cbn -[header_opt_eqb config_truthy from_bytes get_data_address update].
  rewrite R0; cbn -[header_opt_eqb config_truthy from_bytes get_data_address update].
  rewrite Hdec; cbn -[header_opt_eqb config_truthy get_data_address update].
  rewrite (proj2 (Z.ltb_lt 0 _) Hpos);
    cbn -[header_opt_eqb config_truthy get_data_address update].
  rewrite Hsc; cbn [andb w_dev w_st w_trace]. rewrite R1; cbn. rewrite Hl; cbn.
  repeat split; reflexivity.
Qed.

End Persistence.

Lemma save_then_attach_restores_witness :
  let w1 := snd (save ldev_write mp_dumps 101 connected_world) in
  let r := attached ldev_read ldev_write mp_dumps mp_loads 9 300 301 "X"
             {| w_dev := w_dev w1; w_st := init_state; w_trace := [] |} in
  fst r = Ok tt /\ connected (w_st (snd r)) = true /\
  header (w_st (snd r)) = header (w_st w1) /\
  config (w_st (snd r)) = Some [("name"%string, VStr "T0")] /\
  last_config (w_st (snd r)) = Some [("name"%string, VStr "T0")].
Proof.
  refine (save_then_attach_restores (list Z) ldev_read ldev_write mp_dumps
            mp_loads ldev_read_write_same ldev_read_write_other
            connected_world (snd (save ldev_write mp_dumps 101 connected_world))
            (Header_new 7 100) [("name"%string, VStr "T0")] 101 init_state []
            9 300 301 "X" _ _ _ _ _ _).
  - reflexivity.
  - unfold header_ok; cbn; repeat split; vm_compute; congruence.
  - reflexivity.
  - intros p E; vm_compute in E; injection E as <-.
    split; [discriminate | vm_refl].
  - vm_refl.
  - intros x Hx; discriminate Hx.
Defined.

(** ** The other outcomes of [_attached] *)

(** When the header read fails, [_attached] marks the controller
    disconnected, reports readiness with that state and returns: nothing
    else changes (header, record and snapshots stay as they were, no write
    happens and the autosave timer is not armed). *)
Theorem attached_read_failure :
  forall D dev_read dev_write dumps loads u t0 t1 name (w : World D),
  dev_read (w_dev w) 0 32 = None ->
  attached dev_read dev_write dumps loads u t0 t1 name w =
    (Ok tt, {| w_dev := w_dev w; w_st := set_connected false (w_st w);
               w_trace := w_trace w ++ [EvRead 0 32;
                                        EvReady false (config (w_st w))] |}).
Proof.
  intros D dev_read dev_write dumps loads u t0 t1 name w H.
  unfold attached; unfold_monad; cbn. rewrite H; cbn.
  rewrite <- app_assoc; reflexivity.
Qed.

(** When the header decodes and announces a payload (in a state reached by
    a run, where the cache shortcut cannot apply), a failing payload read
    or a payload [msgpack] cannot decode is not caught: [_attached] raises,
    leaving the controller connected with the new header, the record and
    snapshots as they were, the autosave timer not armed and no readiness
    event sent. *)
Theorem attached_payload_failure :
  forall D dev_read dev_write dumps loads u t0 t1 name (w : World D) hd h e,
  dev_read (w_dev w) 0 32 = Some hd -> from_bytes hd = Ok h ->
  0 < data_length h -> last_header_fresh (w_st w) ->
  (dev_read (w_dev w) (get_data_address h) (data_length h) = None /\
     e = DeviceError \/
   exists data, dev_read (w_dev w) (get_data_address h) (data_length h)
                  = Some data /\ loads data = None /\ e = DecodeError) ->
  attached dev_read dev_write dumps loads u t0 t1 name w =
    (Raise e, {| w_dev := w_dev w;
                 w_st := set_header (Some h) (set_connected true (w_st w));
                 w_trace := w_trace w ++
                   [EvRead 0 32; EvRead (get_data_address h) (data_length h)]
              |}).
Proof.
  intros D dev_read dev_write dumps loads u t0 t1 name w hd h e
    Hr Hd Hl Hf Hp.
  assert (Hs : header_opt_eqb (Some h) (last_header (w_st w)) = false).
  { unfold header_opt_eqb.
    destruct (last_header (w_st w)) as [lh|] eqn:El; [|reflexivity].
    destruct (header_eqb h lh) eqn:Eq; [|reflexivity].
    apply header_eqb_length in Eq; rewrite (Hf lh El) in Eq; lia. }
  unfold attached, attach_finish; unfold_monad;
    cbn -[header_opt_eqb config_truthy from_bytes get_data_address].
  rewrite Hr; cbn -[header_opt_eqb config_truthy from_bytes get_data_address].
  rewrite Hd; cbn -[header_opt_eqb config_truthy get_data_address].
  rewrite (proj2 (Z.ltb_lt 0 (data_length h)) Hl);
    cbn -[header_opt_eqb config_truthy get_data_address].
  rewrite Hs; cbn [andb w_dev w_st w_trace].
  destruct Hp as [[Hp ->] | (data & Hp & Hlo & ->)]; rewrite Hp; cbn;
    [|rewrite Hlo; cbn]; rewrite <- !app_assoc; reflexivity.
Qed.

(** A header that announces no payload ([data_length] not positive) gives
    an empty record: no payload read, the last-persisted snapshot kept, the
    autosave timer armed and readiness reported. *)
Theorem attached_empty_payload :
  forall D dev_read dev_write dumps loads u t0 t1 name (w : World D) hd h,
  dev_read (w_dev w) 0 32 = Some hd -> from_bytes hd = Ok h ->
  data_length h <= 0 ->
  attached dev_read dev_write dumps loads u t0 t1 name w =
    (Ok tt, {| w_dev := w_dev w;
               w_st := set_timer true (set_config (Some [])
                         (set_header (Some h) (set_connected true (w_st w))));
               w_trace := w_trace w ++ [EvRead 0 32; EvReady true (Some [])]
            |}).
Proof.
  intros D dev_read dev_write dumps loads u t0 t1 name w hd h Hr Hd Hl.
  unfold attached, attach_finish; unfold_monad;
    cbn -[from_bytes get_data_address].
  rewrite Hr; cbn -[from_bytes get_data_address].
  rewrite Hd; cbn -[get_data_address].
  replace (0 <? data_length h) with false by (symmetry; apply Z.ltb_ge; lia).
  cbn; rewrite <- !app_assoc; reflexivity.
Qed.

Lemma attached_read_failure_witness :
  attached ldev_read ldev_write mp_dumps mp_loads 7 100 101 "T0" (world0 []) =
    (Ok tt, {| w_dev := []; w_st := set_connected false init_state;
               w_trace := [EvRead 0 32; EvReady false None] |}).
Proof.
  apply (attached_read_failure (list Z) ldev_read ldev_write mp_dumps mp_loads
           7 100 101 "T0" (world0 [])); vm_refl.
Defined.

Lemma attached_payload_failure_witness :
  attached ldev_read ldev_write mp_dumps mp_loads 7 100 101 "T0"
    (world0 device_undecodable) =
    (Raise DecodeError,
     {| w_dev := device_undecodable;
        w_st := set_header (Some header_bad_dcrc) (set_connected true init_state);
        w_trace := [EvRead 0 32; EvRead (get_data_address header_bad_dcrc)
                                         (data_length header_bad_dcrc)] |}).
Proof.
  apply (attached_payload_failure (list Z) ldev_read ldev_write mp_dumps
           mp_loads 7 100 101 "T0" (world0 device_undecodable)
           (firstn 32 device_undecodable) header_bad_dcrc DecodeError);
    try vm_refl.
  - intros x Hx; discriminate Hx.
  - right; exists (repeat 0 9); split; [|split]; vm_refl.
Defined.

Lemma attached_empty_payload_witness :
  attached ldev_read ldev_write mp_dumps mp_loads 7 100 101 "T0"
    (world0 device_fresh) =
    (Ok tt, {| w_dev := device_fresh;
               w_st := set_timer true (set_config (Some [])
                         (set_header (Some (Header_new 7 100))
                            (set_connected true init_state)));
               w_trace := [EvRead 0 32; EvReady true (Some [])] |}).
Proof.
  apply (attached_empty_payload (list Z) ldev_read ldev_write mp_dumps
           mp_loads 7 100 101 "T0" (world0 device_fresh)
           (firstn 32 device_fresh) (Header_new 7 100)); try vm_refl.
  vm_compute; congruence.
Defined.

(** ** The key-value facade: insert, lookup and delete *)

Lemma dict_get_replace_same : forall c k v, dict_mem c k = true ->
  dict_get (dict_replace c k v) k = Some v.
Proof.
  unfold dict_mem; induction c as [|[k' v'] c IH]; intros k v H; cbn in *.
  - discriminate.
  - destruct (String.eqb k k') eqn:E; cbn; rewrite ?E; auto.
Qed.

Lemma dict_get_replace_other : forall c k v k', k' <> k ->
  dict_get (dict_replace c k v) k' = dict_get c k'.
Proof.
  induction c as [|[k1 v1] c IH]; intros k v k' N; cbn; [reflexivity|].
  destruct (String.eqb k k1) eqn:E; cbn.
  - apply String.eqb_eq in E; subst k1.
    rewrite (proj2 (String.eqb_neq k' k) N); reflexivity.
  - rewrite IH by exact N; reflexivity.
Qed.

Lemma dict_get_app_new : forall c k v k', dict_get c k' <> None ->
  dict_get (c ++ [(k, v)]) k' = dict_get c k'.
Proof.
  induction c as [|[k1 v1] c IH]; intros k v k' H; cbn in *; [congruence|].
  destruct (String.eqb k' k1); auto.
Qed.

Lemma dict_get_app_absent : forall c k v k', dict_get c k' = None ->
  dict_get (c ++ [(k, v)]) k' = if String.eqb k' k then Some v else None.
Proof.
  induction c as [|[k1 v1] c IH]; intros k v k' H; cbn in *; [reflexivity|].
  destruct (String.eqb k' k1); [discriminate|auto].
Qed.

Lemma dict_set_get : forall c k v k',
  dict_get (dict_set c k v) k' = if String.eqb k' k then Some v
                                 else dict_get c k'.
Proof.
  intros c k v k'; unfold dict_set.
  destruct (dict_mem c k) eqn:M.
  - destruct (String.eqb_spec k' k) as [->|N].
    + apply dict_get_replace_same, M.
    + apply dict_get_replace_other, N.
  - destruct (dict_get c k') as [x|] eqn:G.
    + rewrite dict_get_app_new by congruence.
      destruct (String.eqb_spec k' k) as [->|_]; [|exact G].
      unfold dict_mem in M; rewrite G in M; discriminate.
    + rewrite dict_get_app_absent by exact G.
      destruct (String.eqb k' k); reflexivity.
Qed.

Lemma dict_del_get : forall c k k',
  dict_get (dict_del c k) k' = if String.eqb k' k then None
                               else dict_get c k'.
Proof.
  unfold dict_del; induction c as [|[k1 v1] c IH]; intros k k'; cbn.
  - destruct (String.eqb k' k); reflexivity.
  - destruct (String.eqb_spec k1 k) as [->|N]; cbn.
    + rewrite IH. destruct (String.eqb_spec k' k); reflexivity.
    + rewrite IH. destruct (String.eqb_spec k' k1) as [->|N'].
      * rewrite (proj2 (String.eqb_neq k1 k) N); reflexivity.
      * reflexivity.
Qed.

(** While connected, [set(k, v)] changes only the record, after which
    [get(k)] returns [v] (whatever the default) and every other key reads
    as before. *)
Theorem set_then_get : forall D (w : World D) c k v k' d,
  connected (w_st w) = true -> config (w_st w) = Some c ->
  let w' := snd (set k v w) in
  set k v w = (Ok tt, w') /\
  w' = {| w_dev := w_dev w; w_st := set_config (Some (dict_set c k v)) (w_st w);
          w_trace := w_trace w |} /\
  fst (get k d w') = Ok v /\
  (k' <> k -> fst (get k' d w') = fst (get k' d w)).
Proof.
  intros D w c k v k' d Hc Hcf w'.
  assert (E : set k v w = (Ok tt, {| w_dev := w_dev w;
            w_st := set_config (Some (dict_set c k v)) (w_st w);
            w_trace := w_trace w |})).
  { unfold set, require_config; unfold_monad; cbn -[dict_set dict_del dict_mem]; rewrite Hc, Hcf; reflexivity. }
  subst w'; rewrite E; cbn [snd]; split; [reflexivity|split; [reflexivity|]].
  unfold get, require_config; unfold_monad; cbn -[dict_set dict_del dict_mem]; rewrite Hc, Hcf;
  cbn -[dict_set dict_del dict_mem].
  rewrite dict_set_get, String.eqb_refl; split; [reflexivity|].
  intro N; rewrite dict_set_get, (proj2 (String.eqb_neq k' k) N).
  destruct (dict_get c k'); [reflexivity|destruct d; reflexivity].
Qed.

(** While connected, after [delete(k)] the key is absent ([has(k)] is
    false) and every other key reads as before. *)
Theorem delete_then_has : forall D (w : World D) c k k' d,
  connected (w_st w) = true -> config (w_st w) = Some c ->
  let w' := snd (delete k w) in
  fst (delete k w) = Ok tt /\ fst (has k w') = Ok false /\
  (k' <> k -> fst (get k' d w') = fst (get k' d w)).
Proof.
  intros D w c k k' d Hc Hcf w'; subst w'.
  unfold delete, has, get, require_config; unfold_monad; cbn -[dict_set dict_del dict_mem]; rewrite Hc, Hcf;
  cbn -[dict_set dict_del dict_mem].
  destruct (dict_mem c k) eqn:M; cbn -[dict_set dict_del dict_mem]; rewrite Hc;
    cbn -[dict_set dict_del dict_mem].
  - unfold dict_mem; rewrite !dict_del_get, String.eqb_refl.
    split; [reflexivity | split; [reflexivity|]].
    intro N; rewrite (proj2 (String.eqb_neq k' k) N).
    destruct (dict_get c k'); [reflexivity|destruct d; reflexivity].
  - rewrite Hcf, M; auto.
Qed.

(** While connected, [setdefault(k, d)] returns the value [k] holds and
    changes nothing when [k] is present; otherwise it stores [d] under [k],
    returns it, and [get(k)] then returns [d]. *)
Theorem setdefault_spec : forall D (w : World D) c k d d',
  connected (w_st w) = true -> config (w_st w) = Some c ->
  (forall v, dict_get c k = Some v -> setdefault k d w = (Ok v, w)) /\
  (dict_get c k = None ->
     let w' := snd (setdefault k d w) in
     setdefault k d w = (Ok d, w') /\
     config (w_st w') = Some (c ++ [(k, d)]) /\
     fst (get k d' w') = Ok d).
Proof.
  intros D w c k d d' Hc Hcf; split.
  - intros v G; unfold setdefault, require_config; unfold_monad; cbn.
    rewrite Hc; cbn; rewrite Hcf; cbn; rewrite G; reflexivity.
  - intros G; unfold setdefault, get, require_config; unfold_monad; cbn.
    rewrite Hc; cbn -[dict_set]; rewrite Hcf; cbn -[dict_set]; rewrite G;
      cbn -[dict_set].
    rewrite Hc; cbn -[dict_set].
    unfold dict_set, dict_mem; rewrite G.
    rewrite dict_get_app_absent, String.eqb_refl by exact G; auto.
Qed.

Lemma set_then_get_witness :
  fst (get "profile" None (snd (set "profile" (VStr "dark") connected_world)))
    = Ok (VStr "dark").
Proof.
  refine (proj1 (proj2 (proj2 (set_then_get (list Z) connected_world
            [("name"%string, VStr "T0")] "profile" (VStr "dark") "name" None
            _ _)))); reflexivity.
Defined.

Lemma delete_then_has_witness :
  fst (has "name" (snd (delete "name" connected_world))) = Ok false.
Proof.
  refine (proj1 (proj2 (delete_then_has (list Z) connected_world
            [("name"%string, VStr "T0")] "name" "x" None _ _)));
    reflexivity.
Defined.

Lemma setdefault_spec_witness :
  setdefault "name" (VStr "new") connected_world
    = (Ok (VStr "T0"), connected_world).
Proof.
  refine (proj1 (setdefault_spec (list Z) connected_world
            [("name"%string, VStr "T0")] "name" (VStr "new") None _ _)
            (VStr "T0") _); reflexivity.
Defined.

(** ** Change tracking *)

Lemma dict_mem_cons : forall k' v r k,
  dict_mem ((k', v) :: r) k = String.eqb k k' || dict_mem r k.
Proof.
  intros; unfold dict_mem; cbn; destruct (String.eqb k k'); reflexivity.
Qed.

Lemma dict_get_In_nodup : forall m k x,
  keys_nodup m = true -> In (k, x) m -> dict_get m k = Some x.
Proof.
  induction m as [|[k' x'] r IH]; intros k x Hn Hi; [destruct Hi|].
  cbn in Hn; apply andb_true_iff in Hn as [Hm Hr].
  destruct Hi as [E|Hi].
  - injection E as <- <-; cbn; rewrite String.eqb_refl; reflexivity.
  - cbn; destruct (String.eqb k k') eqn:Ek.
    + apply String.eqb_eq in Ek; subst k'.
      unfold dict_mem in Hm; rewrite (IH k x Hr Hi) in Hm; discriminate Hm.
    + apply IH; assumption.
Qed.

Lemma map_all_refl : forall m m1,
  (forall k x, In (k, x) m1 -> dict_get m k = Some x) ->
  Forall (fun p => py_eqb (snd p) (snd p) = true) m1 ->
  map_all_with py_eqb m m1 = true.
Proof.
  intros m m1; induction m1 as [|[k x] r IH]; intros Hg Hf; [reflexivity|].
  cbn; rewrite (Hg k x (or_introl eq_refl)).
  inversion Hf as [|? ? Hx Hr]; subst; cbn in Hx; rewrite Hx; cbn.
  apply IH; [intros; apply Hg; right; assumption | exact Hr].
Qed.

(** A well-formed value is [==] to itself. *)
Lemma py_eqb_refl : forall v, value_wf v = true -> py_eqb v v = true.
Proof.
  induction v as [| b | z | s | l IH | m IH] using Value_ind'; intros H.
  - reflexivity.
  - destruct b; reflexivity.
  - apply Z.eqb_refl.
  - apply String.eqb_refl.
  - cbn in H |- *; induction l as [|x r IHl]; [reflexivity|].
    cbn in H; apply andb_true_iff in H as [Hx Hr].
    inversion IH as [|? ? Hxx Hrr]; subst; cbn.
    rewrite (Hxx Hx); apply IHl; assumption.
  - cbn in H |- *; apply andb_true_iff in H as [Hn Hf].
    rewrite Nat.eqb_refl; cbn; apply map_all_refl.
    + intros k x Hi; apply dict_get_In_nodup; assumption.
    + rewrite forallb_forall in Hf; rewrite Forall_forall in IH |- *.
      intros p Hp; apply IH; [exact Hp | apply Hf, Hp].
Qed.

Lemma opt_config_eqb_refl : forall c,
  value_wf (config_value c) = true -> opt_config_eqb c c = true.
Proof.
  intros [c|] H; [apply py_eqb_refl, H | reflexivity].
Qed.

(** [_autosave] settles: once it has returned, [has_changes()] is false
    and the next [_autosave] neither touches the device nor changes any
    state, and returns [eventtime + AUTOSAVE_INTERVAL]. *)
Theorem autosave_settles : forall D (dev_write : D -> Z -> list Z -> option D)
  dumps now now' et et' r (w w1 : World D),
  value_wf (config_value (config (w_st w))) = true ->
  autosave dev_write dumps now et w = (Ok r, w1) ->
  r = (et + AUTOSAVE_INTERVAL)%Q /\
  fst (has_changes w1) = Ok false /\
  autosave dev_write dumps now' et' w1
    = (Ok (et' + AUTOSAVE_INTERVAL)%Q, w1).
Proof.
  intros D dev_write dumps now now' et et' r w w1 Hwf H.
  unfold autosave, has_changes in *; unfold bind, ret, get_state in *.
  destruct (opt_config_eqb (config (w_st w)) (last_config (w_st w))) eqn:E;
    cbn -[save] in H.
  - injection H as <- <-; rewrite E; auto.
  - destruct (save dev_write dumps now w) as [[[]|e] w2] eqn:ES;
      [|discriminate H].
    injection H as <- <-.
    apply save_ok_inv in ES as (p & h & hb & d1 & _ & _ & _ & _ & _ & Hs).
    rewrite Hs; simpl_world.
    rewrite (opt_config_eqb_refl _ Hwf); auto.
Qed.

Lemma autosave_settles_witness :
  let w1 := snd (autosave ldev_write mp_dumps 200 0%Q connected_world) in
  fst (has_changes w1) = Ok false /\
  autosave ldev_write mp_dumps 201 1%Q w1 = (Ok (1 + AUTOSAVE_INTERVAL)%Q, w1).
Proof.
  intros w1.
  destruct (autosave_settles (list Z) ldev_write mp_dumps 200 201 0%Q 1%Q
              (0 + AUTOSAVE_INTERVAL)%Q connected_world w1
              ltac:(vm_compute; reflexivity) ltac:(vm_compute; reflexivity))
    as [_ H]; exact H.
Defined.

(** ** Python dicts stay dicts *)










Lemma state_wf_intro : forall s,
  value_wf (config_value (config s)) = true ->
  value_wf (config_value (last_config s)) = true -> state_wf s = true.
Proof. intros s H1 H2; unfold state_wf; rewrite H1, H2; reflexivity. Qed.


Section WfInvariant.

Variable D : Type.
Variable dev_read : D -> Z -> Z -> option (list Z).
Variable dev_write : D -> Z -> list Z -> option D.
Variable dumps : Value -> option (list Z).
Variable loads : list Z -> option Config.
(** [msgpack.loads] yields a Python dict. *)
Hypothesis loads_wf : forall p c, loads p = Some c -> value_wf (VMap c) = true.


End WfInvariant.




(** ** Attachment detection *)

Lemma edges_app : forall T R (o1 o2 : list (TOut T R)),
  edges (o1 ++ o2) = edges o1 ++ edges o2.
Proof. intros; unfold edges; apply flat_map_app. Qed.

Lemma receive_step : forall T R below_open h (v : R) (s : TState R),
  let r := receive_sensor_value (T:=T) below_open h v s in
  (edges (snd r) = [] /\ th_attached (fst r) = th_attached s /\
   th_attached s = Some (below_open v)) \/
  (edges (snd r) = [below_open v] /\ th_attached (fst r) = Some (below_open v) /\
   th_attached s <> Some (below_open v)).
Proof.
  intros T R bo h v s; unfold receive_sensor_value.
  destruct (th_attached s) as [a|] eqn:Ha.
  - destruct (Bool.eqb (bo v) a) eqn:E; cbn.
    + apply Bool.eqb_prop in E; subst a; left; auto.
    + right; split; [reflexivity|split; [reflexivity|]].
      intros H; injection H as ->; rewrite Bool.eqb_reflx in E; discriminate E.
  - right; cbn; split; [reflexivity|split; [reflexivity|discriminate]].
Qed.

Lemma receive_all_alternates_from : forall T R below_open rs (s : TState R),
  alternates_from (th_attached s)
    (edges (snd (receive_all (T:=T) below_open rs s))).
Proof.
  intros T R bo; induction rs as [|[h v] r IH]; intros s; [exact I|].
  cbn [receive_all].
  destruct (receive_step T R bo h v s) as [(E & F & _)|(E & F & G)];
    destruct (receive_sensor_value bo h v s) as [s1 o1];
    destruct (receive_all bo r s1) as [s2 o2] eqn:ER;
    cbn [fst snd] in E, F |- *; rewrite edges_app, E.
  - specialize (IH s1); rewrite ER, F in IH; exact IH.
  - cbn; split; [exact G|]; specialize (IH s1); rewrite ER, F in IH; exact IH.
Qed.

Lemma receive_all_last : forall T R below_open rs h (v : R) (s : TState R),
  th_attached (fst (receive_all (T:=T) below_open (rs ++ [(h, v)]) s))
  = Some (below_open v).
Proof.
  intros T R bo; induction rs as [|[h' v'] r IH]; intros h v s.
  - cbn [app receive_all].
    destruct (receive_step T R bo h v s) as [(_ & F & G)|(_ & F & _)];
      destruct (receive_sensor_value bo h v s) as [s1 o1]; cbn in F |- *;
      congruence.
  - cbn [app receive_all].
    destruct (receive_sensor_value bo h' v' s) as [s1 o1].
    specialize (IH h v s1); destruct (receive_all bo (r ++ [(h, v)]) s1);
      exact IH.
Qed.

Lemma alternates_from_split : forall pre a x y post,
  alternates_from a (pre ++ x :: y :: post) -> x <> y.
Proof.
  induction pre as [|b pre IH]; intros a x y post H.
  - destruct H as [_ [H _]]; intros <-; apply H; reflexivity.
  - destruct H as [_ H]; exact (IH _ _ _ _ H).
Qed.

(** [receive_sensor_value], over any stream of readings from any of the
    heaters (the flag is shared by both): the attached and detached events
    strictly alternate, the first one differs from the flag before the
    stream, and afterwards [self.attached] is the classification of the last
    reading. *)
Theorem receive_all_alternates : forall T R below_open rs (s : TState R),
  let (s', o) := receive_all (T:=T) below_open rs s in
  (forall pre x y post, edges o = pre ++ x :: y :: post -> x <> y) /\
  (forall x post, edges o = x :: post -> th_attached s <> Some x) /\
  (forall pre h v, rs = pre ++ [(h, v)] -> th_attached s' = Some (below_open v)).
Proof.
  intros T R bo rs s.
  pose proof (receive_all_alternates_from T R bo rs s) as A.
  pose proof (receive_all_last T R bo) as L.
  destruct (receive_all bo rs s) as [s' o] eqn:E; cbn [snd] in A.
  split; [|split].
  - intros pre x y post Ho; rewrite Ho in A; exact (alternates_from_split _ _ _ _ _ A).
  - intros x post Ho; rewrite Ho in A; exact (proj1 A).
  - intros pre h v ->; specialize (L pre h v s); rewrite E in L; exact L.
Qed.

Lemma receive_all_witness :
  let rs := [("extruder"%string, 10); ("body"%string, 100);
             ("extruder"%string, 12)] in
  let r := receive_all (T:=unit) (fun z => z <? 99) rs (mkTState None []) in
  edges (snd r) = [true; false; true] /\ th_attached (fst r) = Some true.
Proof.
  intros rs r; split; [vm_compute; reflexivity|].
  pose proof (receive_all_alternates unit Z (fun z => z <? 99) rs
                (mkTState None [])) as H.
  subst r; destruct (receive_all (fun z => z <? 99) rs (mkTState None []))
    as [s' o]; cbn [fst].
  exact (proj2 (proj2 H) [("extruder"%string, 10); ("body"%string, 100)]
           "extruder"%string 12 eq_refl).
Defined.

Lemma sensor_calls_app : forall T R (o1 o2 : list (TOut T R)),
  sensor_calls (o1 ++ o2) = sensor_calls o1 ++ sensor_calls o2.
Proof. intros; unfold sensor_calls; apply flat_map_app. Qed.

Lemma pwm_offs_app : forall T R (o1 o2 : list (TOut T R)),
  pwm_offs (o1 ++ o2) = pwm_offs o1 ++ pwm_offs o2.
Proof. intros; unfold pwm_offs; apply flat_map_app. Qed.

Lemma receive_outputs : forall T R below_open h (v : R) (s : TState R),
  let o := snd (receive_sensor_value (T:=T) below_open h v s) in
  sensor_calls o = [] /\ pwm_offs o = [].
Proof.
  intros T R bo h v s; unfold receive_sensor_value.
  destruct (th_attached s) as [a|]; [destruct (Bool.eqb (bo v) a)|];
    cbn; auto.
Qed.

(** The callback [inject_adc_callback] installs, over any stream of
    readings: [sensor.adc_callback] receives exactly the readings below
    [OPEN_ADC_VALUE], in order; each other reading switches its heater off
    at its read time; and the attachment state and events are those of
    [receive_sensor_value] on the same readings. *)
Theorem adc_all_routes : forall T R below_open (rs : list (string * T * R))
  (s : TState R),
  let (s', o) := adc_all below_open rs s in
  sensor_calls o = filter (fun '(_, _, v) => below_open v) rs /\
  pwm_offs o = map (fun '(h, t, _) => (h, t))
                 (filter (fun '(_, _, v) => negb (below_open v)) rs) /\
  (s', edges o)
  = (fst (receive_all (T:=T) below_open (map (fun '(h, _, v) => (h, v)) rs) s),
     edges (snd (receive_all (T:=T) below_open
                   (map (fun '(h, _, v) => (h, v)) rs) s))).
Proof.
  intros T R bo; induction rs as [|[[h t] v] r IH]; intros s; [cbn; auto|].
  cbn [adc_all receive_all map filter]; unfold new_callback.
  pose proof (receive_outputs T R bo h v s) as [Rs Rp].
  destruct (receive_sensor_value bo h v s) as [s1 o1] eqn:E1.
  specialize (IH s1).
  destruct (adc_all bo r s1) as [s2 o2];
    lazymatch goal with
    | |- context [receive_all bo ?x s1] => destruct (receive_all bo x s1)
        as [s3 o3]
    end; cbn [fst snd] in *.
  destruct IH as (I1 & I2 & I3); injection I3 as -> I3.
  rewrite !sensor_calls_app, !pwm_offs_app, !edges_app, Rs, Rp, I1, I2, I3.
  destruct (bo v); cbn; auto.
Qed.

(** ** The toolhead's hooks into the memory *)

Lemma dict_set_get_other : forall c k v k',
  k' <> k -> dict_get (dict_set c k v) k' = dict_get c k'.
Proof.
  intros c k v k' H; rewrite dict_set_get.
  destruct (String.eqb k' k) eqn:E; [apply String.eqb_eq in E; congruence|].
  reflexivity.
Qed.

Lemma dict_set_get_same : forall c k v, dict_get (dict_set c k v) k = Some v.
Proof. intros; rewrite dict_set_get, String.eqb_refl; reflexivity. Qed.

(** The [set_temp] installed by [inject_temp_callback], once the heater has
    taken its new target: on a connected controller with a record whose
    ["heaters"] entry is absent or a dict, it changes only the record,
    whose ["heaters"] is then a dict binding the heater's name to its target
    and every other heater as before, the other keys being unchanged; if
    ["heaters"] holds anything else it raises a TypeError and changes
    nothing. *)
Theorem set_temp_hook_spec : forall D name target (w : World D) c,
  connected (w_st w) = true -> config (w_st w) = Some c ->
  match dict_get c "heaters" with
  | None | Some (VMap _) =>
      exists c' m',
        set_temp_hook name target w
          = (Ok tt, {| w_dev := w_dev w; w_st := set_config (Some c') (w_st w);
                       w_trace := w_trace w |}) /\
        dict_get c' "heaters" = Some (VMap m') /\
        dict_get m' name = Some target /\
        (forall n, n <> name -> dict_get m' n
           = match dict_get c "heaters" with
             | Some (VMap m) => dict_get m n
             | _ => None
             end) /\
        (forall k, k <> "heaters"%string -> dict_get c' k = dict_get c k)
  | Some _ => set_temp_hook name target w = (Raise TypeOrAttributeError, w)
  end.
Proof.
  intros D name target w c Hc Hcf.
  unfold set_temp_hook, setdefault, require_config; unfold_monad.
  cbn -[dict_set dict_get]; rewrite Hc; cbn -[dict_set dict_get];
    rewrite Hc, Hcf; cbn -[dict_set dict_get].
  destruct (dict_get c "heaters") as [hv|] eqn:G.
  - destruct hv as [| | | | |m]; cbn -[dict_set dict_get];
      try (destruct w; reflexivity).
    rewrite Hcf; cbn -[dict_set dict_get].
    exists (dict_set c "heaters" (VMap (dict_set m name target))),
      (dict_set m name target).
    split; [reflexivity|]; split; [apply dict_set_get_same|].
    split; [apply dict_set_get_same|].
    split; [intros n Hn; apply dict_set_get_other, Hn|].
    intros k Hk; apply dict_set_get_other, Hk.
  - cbn -[dict_set dict_get].
    exists (dict_set (dict_set c "heaters" (VMap []))
              "heaters" (VMap (dict_set [] name target))),
      (dict_set [] name target).
    split; [reflexivity|]; split; [apply dict_set_get_same|].
    split; [apply dict_set_get_same|].
    split; [intros n Hn; rewrite dict_set_get_other by exact Hn; reflexivity|].
    intros k Hk; rewrite !dict_set_get_other by exact Hk; reflexivity.
Qed.

Lemma set_temp_hook_spec_witness :
  exists c' m',
    set_temp_hook "extruder" (VInt 200) connected_world
      = (Ok tt, {| w_dev := w_dev connected_world;
                   w_st := set_config (Some c') (w_st connected_world);
                   w_trace := w_trace connected_world |}) /\
    dict_get c' "heaters" = Some (VMap m') /\
    dict_get m' "extruder" = Some (VInt 200).
Proof.
  destruct (set_temp_hook_spec (list Z) "extruder" (VInt 200) connected_world
              [("name"%string, VStr "T0")] eq_refl eq_refl)
    as (c' & m' & H1 & H2 & H3 & _).
  exists c', m'; split; [exact H1|split; [exact H2|exact H3]].
Defined.

(** The toolhead's hooks into the memory (the preheater callbacks and the
    [set_temp] of [inject_temp_callback]) check [self.memory.connected]
    first: on a disconnected controller they do nothing at all, and in no
    state do they raise [MemoryNotConnected]. *)
Theorem toolhead_hooks_guarded : forall D (w : World D) profile reason
  remaining name target,
  (connected (w_st w) = false ->
   preheater_started profile remaining w = (Ok tt, w) /\
   preheater_update remaining w = (Ok tt, w) /\
   preheater_stopped profile reason remaining w = (Ok tt, w) /\
   set_temp_hook name target w = (Ok tt, w)) /\
  fst (preheater_started profile remaining w) <> Raise MemoryNotConnected /\
  fst (preheater_update remaining w) <> Raise MemoryNotConnected /\
  fst (preheater_stopped profile reason remaining w) <> Raise MemoryNotConnected /\
  fst (set_temp_hook name target w) <> Raise MemoryNotConnected.
Proof.
  intros D w profile reason remaining name target.
  unfold preheater_started, preheater_update, preheater_stopped,
    set_temp_hook, setdefault, set, require_config; unfold_monad.
  destruct (connected (w_st w)) eqn:Hc; cbn -[dict_set dict_get];
    [rewrite Hc; cbn -[dict_set dict_get]|repeat split; discriminate].
  split; [discriminate|].
  destruct (config (w_st w)) as [c|] eqn:Hcf; cbn -[dict_set dict_get];
    [|rewrite ?Hc, ?Hcf; repeat split; discriminate].
  rewrite ?Hc, ?Hcf; cbn -[dict_set dict_get]; rewrite ?Hc, ?Hcf;
    cbn -[dict_set dict_get].
  destruct (dict_get c "heaters") as [[| | | | |m]|];
    cbn -[dict_set dict_get]; repeat split; discriminate.
Qed.

Lemma toolhead_hooks_guarded_witness :
  preheater_started (VStr "dark") 60 (world0 []) = (Ok tt, world0 []) /\
  preheater_update 60 (world0 []) = (Ok tt, world0 []) /\
  preheater_stopped (VStr "dark") (VStr "cancelled") 0 (world0 [])
    = (Ok tt, world0 []) /\
  set_temp_hook "extruder" (VInt 200) (world0 []) = (Ok tt, world0 []).
Proof.
  exact (proj1 (toolhead_hooks_guarded (list Z) (world0 []) (VStr "dark")
                  (VStr "cancelled") 60 "extruder" (VInt 200)) eq_refl).
Defined.

(** An attach that decodes a header announcing a payload and then fails to
    read or decode the payload, on a controller without a record (as before
    its first attach): it is left connected but with [config] [None], the
    autosave timer as it was and no readiness event sent.  Every facade
    call and every toolhead hook that writes the record then raises a
    TypeError or AttributeError, not [MemoryNotConnected]. *)
Theorem connected_without_record :
  forall D dev_read dev_write dumps loads u t0 t1 name (w : World D) hd h
    k v dflt profile remaining hname target,
  config (w_st w) = None -> last_header_fresh (w_st w) ->
  dev_read (w_dev w) 0 32 = Some hd -> from_bytes hd = Ok h ->
  0 < data_length h ->
  (dev_read (w_dev w) (get_data_address h) (data_length h) = None \/
   exists data, dev_read (w_dev w) (get_data_address h) (data_length h)
                  = Some data /\ loads data = None) ->
  let w1 := snd (attached dev_read dev_write dumps loads u t0 t1 name w) in
  connected (w_st w1) = true /\ config (w_st w1) = None /\
  timer_armed (w_st w1) = timer_armed (w_st w) /\
  w_trace w1 = w_trace w ++
                 [EvRead 0 32; EvRead (get_data_address h) (data_length h)] /\
  fst (has k w1) = Raise TypeOrAttributeError /\
  fst (get k dflt w1) = Raise TypeOrAttributeError /\
  fst (set k v w1) = Raise TypeOrAttributeError /\
  fst (setdefault k v w1) = Raise TypeOrAttributeError /\
  fst (delete k w1) = Raise TypeOrAttributeError /\
  fst (preheater_started profile remaining w1) = Raise TypeOrAttributeError /\
  fst (set_temp_hook hname target w1) = Raise TypeOrAttributeError.
Proof.
  intros D dev_read dev_write dumps loads u t0 t1 name w hd h k v dflt
    profile remaining hname target Hc Hf Hr Hd Hl Hp w1.
  assert (Hs : header_opt_eqb (Some h) (last_header (w_st w)) = false).
  { unfold header_opt_eqb.
    destruct (last_header (w_st w)) as [lh|] eqn:El; [|reflexivity].
    destruct (header_eqb h lh) eqn:Eq; [|reflexivity].
    apply header_eqb_length in Eq; rewrite (Hf lh El) in Eq; lia. }
  assert (Hw : w1 = {| w_dev := w_dev w;
                       w_st := set_header (Some h) (set_connected true (w_st w));
                       w_trace := w_trace w ++
                         [EvRead 0 32; EvRead (get_data_address h) (data_length h)]
                    |}).
  { subst w1; unfold attached, attach_finish; unfold_monad;
      cbn -[header_opt_eqb config_truthy from_bytes get_data_address].
    rewrite Hr; cbn -[header_opt_eqb config_truthy from_bytes get_data_address].
    rewrite Hd; cbn -[header_opt_eqb config_truthy get_data_address].
    rewrite (proj2 (Z.ltb_lt 0 (data_length h)) Hl);
      cbn -[header_opt_eqb config_truthy get_data_address].
    rewrite Hs; cbn [andb w_dev w_st w_trace].
    destruct Hp as [Hp | (data & Hp & Hlo)]; rewrite Hp; cbn;
      [|rewrite Hlo; cbn]; rewrite <- !app_assoc; reflexivity. }
  rewrite Hw; clear Hw w1.
  split; [reflexivity|]; split; [exact Hc|]; split; [reflexivity|];
    split; [reflexivity|].
  match goal with |- context [has k ?x] => set (w2 := x) end.
  assert (H1 : connected (w_st w2) = true) by reflexivity.
  assert (H2 : config (w_st w2) = None) by exact Hc.
  clearbody w2.
  unfold preheater_started, preheater_update, set_temp_hook.
  unfold has, get, set, setdefault, delete, require_config; unfold_monad;
    cbn -[dict_set dict_get]; rewrite ?H1, ?H2; cbn -[dict_set dict_get];
    rewrite ?H1, ?H2; auto 20.
Qed.

Lemma connected_without_record_witness :
  let w1 := snd (attached ldev_read ldev_write mp_dumps mp_loads 7 100 101 "T0"
                   (world0 device_undecodable)) in
  connected (w_st w1) = true /\ config (w_st w1) = None /\
  fst (set "profile" (VStr "dark") w1) = Raise TypeOrAttributeError /\
  fst (preheater_started (VStr "dark") 60 w1) = Raise TypeOrAttributeError.
Proof.
  destruct (connected_without_record (list Z) ldev_read ldev_write mp_dumps
              mp_loads 7 100 101 "T0" (world0 device_undecodable)
              (firstn 32 device_undecodable) header_bad_dcrc
              "profile" (VStr "dark") None (VStr "dark") 60 "extruder" (VInt 200))
    as (H1 & H2 & _ & _ & _ & _ & H3 & _ & _ & H4 & _); try vm_refl.
  - intros x Hx; discriminate Hx.
  - right; exists (repeat 0 9); split; vm_refl.
  - exact (conj H1 (conj H2 (conj H3 H4))).
Defined.

(** ** Nozzle offsets *)

Section NozzleProofs.

Variables F V : Type.
Variable fzero : F.
Variable fneg fround4 : F -> F.
Variable uid_str : Z -> string.
Variable vars_get : V -> string -> option F.
Variable vars_save : V -> string -> F -> option V.
Variable prefix : string.

Lemma opt_str_eqb_refl : forall t, opt_str_eqb (Some t) (Some t) = true.
Proof. intros t; apply String.eqb_refl. Qed.

Lemma opt_str_eqb_false : forall a t, a <> Some t -> opt_str_eqb a (Some t) = false.
Proof.
  intros [a|] t H; [|reflexivity]; cbn.
  destruct (String.eqb a t) eqn:E; [apply String.eqb_eq in E; congruence|].
  reflexivity.
Qed.

Lemma set_offsets_other : forall cs (s s' : NState F V),
  set_offsets fround4 vars_save prefix cs s = Some s' ->
  (forall u x, In (u, x) cs -> u <> "current"%string /\ n_tool s <> Some u) ->
  n_tool s' = n_tool s /\ n_offset s' = n_offset s /\ n_adjusts s' = n_adjusts s.
Proof.
  induction cs as [|[u x] r IH]; intros s s' H Hc.
  - injection H as <-; auto.
  - cbn in H; unfold cmd_SET_NOZZLE_OFFSET in H.
    destruct (Hc u x (or_introl eq_refl)) as [Hu Ht].
    apply String.eqb_neq in Hu; rewrite Hu in H.
    destruct (vars_save (n_vars s) (prefix ++ u)%string (fround4 x)) as [v'|];
      [|discriminate H].
    rewrite (opt_str_eqb_false _ _ Ht) in H.
    assert (Hc' : forall u' x', In (u', x') r ->
              u' <> "current"%string /\ n_tool s <> Some u')
      by (intros u' x' Hi; apply (Hc u' x'); right; exact Hi).
    destruct (IH _ _ H Hc') as (E1 & E2 & E3); cbn in *; auto.
Qed.

End NozzleProofs.

(** [SET_NOZZLE_OFFSET]: [UID=current] with no tool attached raises.
    Otherwise, on success, it saves [round(offset, 4)] under the tool it
    names (the current tool for [UID=current]) and issues no [Z_ADJUST]; if
    that tool is the current one, [_current_offset] becomes [offset] itself,
    unrounded.  The next [_memory_ready] for that tool (["generic"] when
    not connected, [str(uid)] of the header when connected) applies
    [Z_ADJUST=round(offset, 4)], provided [save_variables] reads back what
    it saved. *)
Theorem set_offset_then_ready : forall F V (fzero : F) (fround4 : F -> F)
  (uid_str : Z -> string) vars_get vars_save prefix u x
  (s s1 : NState F V),
  (forall v k y v', vars_save v k y = Some v' -> vars_get v' k = Some y) ->
  (u = "current"%string -> n_tool s = None ->
   cmd_SET_NOZZLE_OFFSET fround4 vars_save prefix u x s = None) /\
  (cmd_SET_NOZZLE_OFFSET fround4 vars_save prefix u x s = Some s1 ->
   exists t,
     (if String.eqb u "current" then n_tool s else Some u) = Some t /\
     n_tool s1 = n_tool s /\ n_adjusts s1 = n_adjusts s /\
     n_offset s1 = (if opt_str_eqb (n_tool s) (Some t) then x
                    else n_offset s) /\
     forall (conn : bool) (hdr : option Header),
       (if conn then option_map (fun h => uid_str (uid h)) hdr
        else Some "generic"%string) = Some t ->
       exists s2,
         memory_ready fzero uid_str vars_get prefix conn hdr s1 = Some s2 /\
         n_tool s2 = Some t /\ n_offset s2 = fround4 x /\
         n_adjusts s2 = n_adjusts s ++ [fround4 x]).
Proof.
  intros F V fzero fround4 uid_str vars_get vars_save prefix u x s s1 Hrb.
  split.
  - intros -> Hn; unfold cmd_SET_NOZZLE_OFFSET; cbn; rewrite Hn; reflexivity.
  - unfold cmd_SET_NOZZLE_OFFSET; intros H.
    destruct (if String.eqb u "current" then n_tool s else Some u) as [t|]
      eqn:Et; [|discriminate H].
    destruct (vars_save (n_vars s) (prefix ++ t)%string (fround4 x)) as [v'|] eqn:Es;
      [|discriminate H].
    injection H as <-.
    exists t; split; [reflexivity|]; cbn; split; [reflexivity|];
      split; [reflexivity|]; split; [reflexivity|].
    intros conn hdr Ht; unfold memory_ready; rewrite Ht; cbn.
    rewrite (Hrb _ _ _ _ Es).
    eexists; split; [reflexivity|]; cbn; auto.
Qed.

(** [_memory_ready] then [_on_detach]: the detach issues the negation of the
    [Z_ADJUST] the ready issued, and forgets the tool and its offset, when
    the [SET_NOZZLE_OFFSET] commands in between all name other tools.  A
    [SET_NOZZLE_OFFSET UID=current OFFSET=x] in between makes the detach
    issue [-x] instead, while no [Z_ADJUST] of [x] was issued. *)
Theorem ready_detach_cancels : forall F V (fzero : F) fneg fround4
  (uid_str : Z -> string) vars_get vars_save prefix conn hdr cs x
  (s s1 s2 : NState F V),
  memory_ready fzero uid_str vars_get prefix conn hdr s = Some s1 ->
  (set_offsets fround4 vars_save prefix cs s1 = Some s2 ->
   (forall u y, In (u, y) cs -> u <> "current"%string /\ n_tool s1 <> Some u) ->
   let s3 := offsets_on_detach fzero fneg s2 in
   n_adjusts s3 = n_adjusts s ++ [n_offset s1; fneg (n_offset s1)] /\
   n_tool s3 = None /\ n_offset s3 = fzero /\ n_vars s3 = n_vars s2) /\
  (cmd_SET_NOZZLE_OFFSET fround4 vars_save prefix "current" x s1 = Some s2 ->
   n_adjusts (offsets_on_detach fzero fneg s2)
   = n_adjusts s ++ [n_offset s1; fneg x]).
Proof.
  intros F V fzero fneg fround4 uid_str vars_get vars_save prefix conn hdr cs
    x s s1 s2 Hr.
  assert (Ha : n_adjusts s1 = n_adjusts s ++ [n_offset s1]).
  { unfold memory_ready in Hr.
    destruct (if conn then _ else _) as [t|]; [|discriminate Hr].
    injection Hr as <-; reflexivity. }
  assert (Ht : exists t, n_tool s1 = Some t).
  { unfold memory_ready in Hr.
    destruct (if conn then _ else _) as [t|]; [|discriminate Hr].
    injection Hr as <-; exists t; reflexivity. }
  split.
  - intros Hs Hc s3.
    destruct (set_offsets_other F V fround4 vars_save prefix cs s1 s2 Hs Hc)
      as (E1 & E2 & E3).
    subst s3; cbn; rewrite E2, E3, Ha, <- app_assoc; auto.
  - intros Hs; destruct Ht as [t Ht].
    unfold cmd_SET_NOZZLE_OFFSET in Hs; cbn in Hs; rewrite Ht in Hs.
    destruct (vars_save (n_vars s1) (prefix ++ t)%string (fround4 x));
      [|discriminate Hs].
    injection Hs as <-; cbn; rewrite String.eqb_refl, Ha, <- app_assoc;
      reflexivity.
Qed.

Lemma set_offset_then_ready_witness :
  let vars_get (v : list (string * Z)) (k : string) :=
    option_map snd (find (fun p => String.eqb (fst p) k) v) in
  exists s2,
    memory_ready 0 (fun _ => "abc"%string) vars_get "z_offset_"%string
      true (Some (Header_new 7 100))
      (mkNState (Some "abc"%string) 7 [("z_offset_abc"%string, 7)] [5])
      = Some s2 /\ n_adjusts s2 = [5; 7].
Proof.
  intros vars_get.
  destruct (set_offset_then_ready Z (list (string * Z)) 0 (fun z => z)
              (fun _ => "abc"%string) vars_get
              (fun v k y => Some ((k, y) :: v)) "z_offset_"%string
              "current"%string 7 (mkNState (Some "abc"%string) 5 [] [5])
              (mkNState (Some "abc"%string) 7 [("z_offset_abc"%string, 7)] [5]))
    as [_ H2].
  { intros v k y v' E; injection E as <-; unfold vars_get; cbn;
      rewrite String.eqb_refl;
      reflexivity. }
  destruct (H2 ltac:(vm_compute; reflexivity)) as (t & Ht & _ & _ & _ & Hr).
  cbn in Ht; injection Ht as <-.
  destruct (Hr true (Some (Header_new 7 100)) ltac:(vm_compute; reflexivity))
    as (s2 & E & _ & _ & Ea).
  exists s2; split; [exact E | rewrite Ea; reflexivity].
Defined.

Lemma ready_detach_cancels_witness :
  let vars_get (v : list (string * Z)) (k : string) :=
    option_map snd (find (fun p => String.eqb (fst p) k) v) in
  let s1 := mkNState (Some "generic"%string) 0 ([] : list (string * Z)) [0] in
  n_adjusts (offsets_on_detach 0 Z.opp
               (mkNState (Some "generic"%string) 0
                  [("z_offset_abc"%string, 3)] [0])) = [0; 0].
Proof.
  intros vars_get s1.
  destruct (ready_detach_cancels Z (list (string * Z)) 0 Z.opp (fun z => z)
              (fun _ => "abc"%string) vars_get
              (fun v k y => Some ((k, y) :: v)) "z_offset_"%string false None
              [("abc"%string, 3)] 9 (mkNState None 0 [] []) s1
              (mkNState (Some "generic"%string) 0
                 [("z_offset_abc"%string, 3)] [0])
              ltac:(vm_compute; reflexivity)) as [H1 _].
  exact (proj1 (H1 ltac:(vm_compute; reflexivity)
                   ltac:(intros u y [E|[]]; injection E as <- <-;
                         split; discriminate))).
Defined.

(** ** The status reported and the autosave condition *)

Lemma dict_mem_In : forall m k, dict_mem m k = true <-> In k (map fst m).
Proof.
  induction m as [|[k' v] r IH]; intros k; [split; [discriminate|intros []]|].
  rewrite dict_mem_cons, orb_true_iff, IH; cbn.
  rewrite String.eqb_eq; split; intros [H|H]; auto.
Qed.

Lemma keys_nodup_NoDup : forall m, keys_nodup m = true -> NoDup (map fst m).
Proof.
  induction m as [|[k v] r IH]; intros H; [constructor|].
  cbn in H |- *; apply andb_true_iff in H as [H1 H2].
  constructor; [|apply IH, H2].
  intros Hi; apply dict_mem_In in Hi; rewrite Hi in H1; discriminate H1.
Qed.

Lemma dict_get_In : forall m k x, dict_get m k = Some x -> In (k, x) m.
Proof.
  induction m as [|[k' v] r IH]; intros k x H; [discriminate H|].
  cbn in H; destruct (String.eqb k k') eqn:E.
  - apply String.eqb_eq in E; injection H as <-; subst; left; reflexivity.
  - right; apply IH, H.
Qed.

Lemma In_keys_get : forall m k, In k (map fst m) ->
  exists x, dict_get m k = Some x.
Proof.
  intros m k H; apply dict_mem_In in H; unfold dict_mem in H.
  destruct (dict_get m k) as [x|]; [exists x; reflexivity|discriminate H].
Qed.

Lemma map_all_iff : forall eq m2 m1,
  map_all_with eq m2 m1 = true <->
  (forall k x, In (k, x) m1 -> exists y, dict_get m2 k = Some y /\ eq x y = true).
Proof.
  intros eq m2; induction m1 as [|[k x] r IH].
  - split; [intros _ k x []|reflexivity].
  - cbn; split.
    + destruct (dict_get m2 k) as [y|] eqn:E; [|discriminate].
      intros H; apply andb_true_iff in H as [H1 H2].
      intros k' x' [Hk|Hi]; [injection Hk as <- <-; eauto|].
      apply IH; assumption.
    + intros H; destruct (H k x (or_introl eq_refl)) as (y & E & Hy).
      rewrite E, Hy; cbn; apply IH; intros; apply H; right; assumption.
Qed.

(** One direction of the symmetry of [==] on dicts of the same size, with
    keys bound once on both sides, given the symmetry on the values bound
    to a same key. *)
Lemma map_all_flip : forall m1 m2,
  keys_nodup m1 = true -> keys_nodup m2 = true ->
  length m1 = length m2 ->
  (forall k x y, In (k, x) m1 -> In (k, y) m2 -> py_eqb x y = py_eqb y x) ->
  map_all_with py_eqb m2 m1 = true -> map_all_with py_eqb m1 m2 = true.
Proof.
  intros m1 m2 N1 N2 L Hs H.
  rewrite map_all_iff in H |- *.
  intros k y Hy.
  assert (Hk : In k (map fst m1)).
  { apply (NoDup_length_incl (l' := map fst m2) (keys_nodup_NoDup m1 N1)).
    - rewrite !length_map, L; lia.
    - intros k' Hk'; apply in_map_iff in Hk' as ([k'' x] & <- & Hi).
      destruct (H k'' x Hi) as (y' & E & _); cbn.
      apply dict_mem_In; unfold dict_mem; rewrite E; reflexivity.
    - apply in_map_iff; exists (k, y); auto. }
  destruct (In_keys_get m1 k Hk) as [x Ex].
  destruct (H k x (dict_get_In _ _ _ Ex)) as (y' & Ey & Hxy).
  rewrite (dict_get_In_nodup m2 k y N2 Hy) in Ey; injection Ey as <-.
  exists x; split; [exact Ex|].
  rewrite <- (Hs k x y (dict_get_In _ _ _ Ex) Hy); exact Hxy.
Qed.

(** [==] on well-formed values is symmetric. *)
Lemma py_eqb_sym : forall a, value_wf a = true ->
  forall b, value_wf b = true -> py_eqb a b = py_eqb b a.
Proof.
  induction a as [| b0 | z | s | l IH | m IH] using Value_ind';
    intros Ha b Hb.
  - destruct b; reflexivity.
  - destruct b; cbn; try reflexivity; apply Z.eqb_sym.
  - destruct b; cbn; try reflexivity; apply Z.eqb_sym.
  - destruct b; cbn; try reflexivity; apply String.eqb_sym.
  - destruct b as [| | | |l2|m2]; cbn; try reflexivity.
    cbn in Ha, Hb; revert l2 Hb; induction l as [|x r IHl]; intros l2 Hb;
      destruct l2 as [|y r2]; try reflexivity.
    cbn in Ha, Hb |- *; apply andb_true_iff in Ha as [Hx Hr];
      apply andb_true_iff in Hb as [Hy Hr2].
    inversion IH as [|? ? IHx IHr]; subst.
    rewrite (IHx Hx y Hy), (IHl IHr Hr r2 Hr2); reflexivity.
  - destruct b as [| | | |l2|m2]; cbn; try reflexivity.
    cbn in Ha, Hb; apply andb_true_iff in Ha as [N1 W1];
      apply andb_true_iff in Hb as [N2 W2].
    rewrite forallb_forall in W1, W2; rewrite Forall_forall in IH.
    rewrite Nat.eqb_sym.
    destruct (Nat.eqb (length m2) (length m)) eqn:L; [|reflexivity].
    apply Nat.eqb_eq in L; cbn.
    assert (Hs : forall k x y, In (k, x) m -> In (k, y) m2 ->
                 py_eqb x y = py_eqb y x).
    { intros k x y Hx Hy.
      exact (IH (k, x) Hx (W1 (k, x) Hx) y (W2 (k, y) Hy)). }
    destruct (map_all_with py_eqb m2 m) eqn:E1,
             (map_all_with py_eqb m m2) eqn:E2; try reflexivity.
    + rewrite (map_all_flip m m2 N1 N2 (eq_sym L) Hs E1) in E2;
        discriminate E2.
    + rewrite (map_all_flip m2 m N2 N1 L
                 (fun k y x Hy Hx => eq_sym (Hs k x y Hx Hy)) E2) in E1;
        discriminate E1.
Qed.

(** [get_status] reports as [changes_pending] ([_last_config != config])
    exactly what [has_changes()] ([config != _last_config]) returns, the
    condition on which [_autosave] saves, whenever both are [None] or proper
    dicts. *)
Theorem status_changes_pending : forall D (w : World D),
  state_wf (w_st w) = true ->
  fst (has_changes w) = Ok (ms_changes_pending (get_status (w_st w))).
Proof.
  intros D w H; unfold has_changes, get_status, state_wf in *;
    cbn -[py_eqb value_wf].
  apply andb_true_iff in H as [H1 H2].
  destruct (config (w_st w)) as [c|], (last_config (w_st w)) as [l|];
    try reflexivity.
  cbn -[py_eqb value_wf] in H1, H2 |- *;
    rewrite (py_eqb_sym (VMap c) H1 (VMap l) H2); reflexivity.
Qed.

Lemma status_changes_pending_witness :
  fst (has_changes (snd (set "profile" (VStr "dark")
                          (snd (autosave ldev_write mp_dumps 200 0%Q
                                  connected_world)))))
  = Ok true.
Proof.
  rewrite (status_changes_pending (list Z)); [reflexivity|].
  vm_compute; reflexivity.
Defined.
